(** * watch-together: the signalling and playback-sync core

    A shallow embedding of the [useWebRTC] hook and of the [Room] page that
    owns it.  The browser (media capture, [RTCPeerConnection], the realtime
    channel, the storage upload) is an explicit environment; every call the
    program makes to it is recorded, in order, in an effect log, so that
    statements about "what was attempted" and "what was sent" are statements
    about that log. *)

From Stdlib Require Import List String Bool Arith Lia Floats RelationClasses.
From Stdlib Require Import Permutation Sorted.
Import ListNotations.

Set Implicit Arguments.
Set Warnings "-inexact-float".

Open Scope string_scope.
Open Scope list_scope.

(** ** JavaScript values used by the program *)

(** [x || 0] and [if (x)] on a number: falsy exactly at [+0], [-0], [NaN]. *)
Definition number_truthy (x : float) : bool :=
  negb (PrimFloat.eqb x 0%float) && negb (PrimFloat.is_nan x).

Definition number_or (x y : float) : float :=
  if number_truthy x then x else y.

(** A string is falsy exactly when it is empty. *)
Definition string_truthy (s : string) : bool :=
  negb (String.eqb s "").

Definition option_truthy (o : option string) : bool :=
  match o with
  | Some s => string_truthy s
  | None => false
  end.

(** ** [Map<string, V>]: insertion-ordered, one entry per key *)

Module JsMap.
Section WithValue.
Variable V : Type.

Definition t := list (string * V).

Definition empty : t := [].

Fixpoint get (k : string) (m : t) : option V :=
  match m with
  | [] => None
  | (k', v) :: rest => if String.eqb k k' then Some v else get k rest
  end.

(** [set] on a present key overwrites in place; a new key goes last. *)
Fixpoint set (k : string) (v : V) (m : t) : t :=
  match m with
  | [] => [(k, v)]
  | (k', v') :: rest =>
    if String.eqb k k' then (k, v) :: rest else (k', v') :: set k v rest
  end.

Definition keys (m : t) : list string := map fst m.
Definition values (m : t) : list V := map snd m.

(** Number of entries stored under [k]. *)
Definition entries (k : string) (m : t) : nat :=
  List.length (filter (fun kv => String.eqb k (fst kv)) m).

Definition size (m : t) : nat := List.length m.

(** The map invariant: no key is stored twice. *)
Definition functional (m : t) : Prop := forall k, entries k m <= 1.
End WithValue.
Arguments empty {V}.
End JsMap.

(** ** Signals on the room channel *)

Definition PeerId := string.
Definition RTCSessionDescriptionInit := string.
Definition RTCIceCandidateInit := string.

Inductive ControlAction := play | pause | seek | sync | file_url.

(** The [payload] of a control signal: [{ time?: number, url?: string }]. *)
Record ControlPayload := {
  time : option float;
  url : option string
}.

Inductive SignalBody :=
| offer (sdp : RTCSessionDescriptionInit)
| answer (sdp : RTCSessionDescriptionInit)
| ice_candidate (candidate : option RTCIceCandidateInit)
| host_stopped
| host_started
| viewer_ready
| control (action : ControlAction) (payload : option ControlPayload).

Record SignalMessage := {
  body : SignalBody;
  from : PeerId;
  to : option PeerId
}.

Definition is_offer (m : SignalMessage) : bool :=
  match body m with offer _ => true | _ => false end.
Definition is_answer (m : SignalMessage) : bool :=
  match body m with answer _ => true | _ => false end.
Definition is_viewer_ready (m : SignalMessage) : bool :=
  match body m with viewer_ready => true | _ => false end.
Definition is_host_started (m : SignalMessage) : bool :=
  match body m with host_started => true | _ => false end.
Definition is_control (m : SignalMessage) : bool :=
  match body m with control _ _ => true | _ => false end.

(** ** Media objects *)

Inductive TrackKind := audio | video.

Record MediaStreamTrack := {
  track_id : nat;
  kind : TrackKind
}.

Record MediaStream := {
  getTracks : list MediaStreamTrack
}.

Definition getAudioTracks (s : MediaStream) : list MediaStreamTrack :=
  filter (fun t => match kind t with audio => true | video => false end) (getTracks s).
Definition getVideoTracks (s : MediaStream) : list MediaStreamTrack :=
  filter (fun t => match kind t with video => true | audio => false end) (getTracks s).

(** What a [<video>] element's [src]/[srcObject] pair points at. *)
Record HTMLVideoElement := {
  srcObject : option MediaStream;
  src : string;
  muted : bool;
  controls : bool;
  currentTime : float;
  paused : bool;
  (* the host's [onplay]/[onpause]/[onseeked] handlers are bound *)
  bound : bool
}.

Definition with_currentTime (v : HTMLVideoElement) (t : float) : HTMLVideoElement :=
  {| srcObject := srcObject v; src := src v; muted := muted v;
     controls := controls v; currentTime := t; paused := paused v;
     bound := bound v |}.

Definition with_paused (v : HTMLVideoElement) (p : bool) : HTMLVideoElement :=
  {| srcObject := srcObject v; src := src v; muted := muted v;
     controls := controls v; currentTime := currentTime v; paused := p;
     bound := bound v |}.

(** ** The browser: effects and environment *)

Inductive StreamMode := screen | file.
Inductive ChannelStatus := SUBSCRIBED | TIMED_OUT | CLOSED | CHANNEL_ERROR.

(** One entry per call that leaves the program. *)
Inductive Effect :=
| NewPeerConnection (pc : nat) (remotePeerId : PeerId)
| AddTrack (pc : nat) (t : MediaStreamTrack)
| SetParameters (pc : nat) (t : MediaStreamTrack)
| SetCodecPreferences (pc : nat) (codecs : list string)
| CreateOffer (pc : nat)
| CreateAnswer (pc : nat)
| SetLocalDescription (pc : nat) (sdp : RTCSessionDescriptionInit)
| SetRemoteDescription (pc : nat) (sdp : RTCSessionDescriptionInit)
| AddIceCandidate (pc : nat) (c : RTCIceCandidateInit)
| Close (pc : nat)
| TrackStop (t : MediaStreamTrack)
| GetDisplayMedia
| Subscribe (channel : nat)
| Unsubscribe (channel : nat)
| Send (channel : nat) (m : SignalMessage)
| Upload (fileName : string)
| SetInterval (id : nat)
| ClearInterval (id : nat)
| Play.

(** Results of the calls whose outcome the program does not control.  Each
    may depend on everything done so far.  [None] / [false] stand for a
    rejected promise or a thrown exception. *)
Record Browser := {
  getDisplayMedia : list Effect -> option MediaStream;
  createOffer : list Effect -> nat -> option RTCSessionDescriptionInit;
  createAnswer : list Effect -> nat -> option RTCSessionDescriptionInit;
  setLocalDescription : list Effect -> nat -> RTCSessionDescriptionInit -> bool;
  setRemoteDescription : list Effect -> nat -> RTCSessionDescriptionInit -> bool;
  addIceCandidate : list Effect -> nat -> RTCIceCandidateInit -> bool;
  setParameters : list Effect -> nat -> MediaStreamTrack -> bool;
  (* [RTCRtpSender.getCapabilities("video")?.codecs], by mime type *)
  getCapabilities : option (list string);
  setCodecPreferences : list Effect -> nat -> list string -> bool;
  playAllowed : list Effect -> bool;
  (* storage upload: the public URL, or an error *)
  upload : list Effect -> string -> option string;
  (* [track.stop()] and [pc.close()] return nothing and never throw; [false]
     is a release that failed: nothing was released by this call (the track
     had ended, the connection was closed, ...) *)
  trackStopped : list Effect -> MediaStreamTrack -> bool;
  connectionClosed : list Effect -> nat -> bool
}.

(** ** Program state *)

(** The three refs of [useWebRTC]. *)
Record Refs := {
  peerConnections : JsMap.t nat;
  channelRef : option nat;
  localStreamRef : option MediaStream
}.

(** The state and refs of the [Room] component. *)
Record RoomState := {
  isSharing : bool;
  hasStream : bool;
  videoFileUrl : option string;
  streamMode : StreamMode;
  isUploading : bool;
  videoRef : option HTMLVideoElement;
  localVideoRef : option HTMLVideoElement;
  syncIntervalRef : option nat
}.

Record App := {
  hook : Refs;
  room : RoomState;
  log : list Effect;
  (* next unused handle (peer connections, channels, timers) *)
  fresh : nat
}.

Definition upd_hook (f : Refs -> Refs) (a : App) : App :=
  {| hook := f (hook a); room := room a; log := log a; fresh := fresh a |}.
Definition upd_room (f : RoomState -> RoomState) (a : App) : App :=
  {| hook := hook a; room := f (room a); log := log a; fresh := fresh a |}.
Definition emit (e : Effect) (a : App) : App :=
  {| hook := hook a; room := room a; log := log a ++ [e]; fresh := fresh a |}.
Definition bump (a : App) : App :=
  {| hook := hook a; room := room a; log := log a; fresh := S (fresh a) |}.

Definition set_peerConnections (m : JsMap.t nat) (r : Refs) : Refs :=
  {| peerConnections := m; channelRef := channelRef r;
     localStreamRef := localStreamRef r |}.
Definition set_channelRef (c : option nat) (r : Refs) : Refs :=
  {| peerConnections := peerConnections r; channelRef := c;
     localStreamRef := localStreamRef r |}.
Definition set_localStreamRef (s : option MediaStream) (r : Refs) : Refs :=
  {| peerConnections := peerConnections r; channelRef := channelRef r;
     localStreamRef := s |}.

Definition setIsSharing (b : bool) (r : RoomState) : RoomState :=
  {| isSharing := b; hasStream := hasStream r; videoFileUrl := videoFileUrl r;
     streamMode := streamMode r; isUploading := isUploading r;
     videoRef := videoRef r; localVideoRef := localVideoRef r;
     syncIntervalRef := syncIntervalRef r |}.
Definition setHasStream (b : bool) (r : RoomState) : RoomState :=
  {| isSharing := isSharing r; hasStream := b; videoFileUrl := videoFileUrl r;
     streamMode := streamMode r; isUploading := isUploading r;
     videoRef := videoRef r; localVideoRef := localVideoRef r;
     syncIntervalRef := syncIntervalRef r |}.
Definition setVideoFileUrl (u : option string) (r : RoomState) : RoomState :=
  {| isSharing := isSharing r; hasStream := hasStream r; videoFileUrl := u;
     streamMode := streamMode r; isUploading := isUploading r;
     videoRef := videoRef r; localVideoRef := localVideoRef r;
     syncIntervalRef := syncIntervalRef r |}.
Definition setStreamMode (m : StreamMode) (r : RoomState) : RoomState :=
  {| isSharing := isSharing r; hasStream := hasStream r;
     videoFileUrl := videoFileUrl r; streamMode := m;
     isUploading := isUploading r; videoRef := videoRef r;
     localVideoRef := localVideoRef r; syncIntervalRef := syncIntervalRef r |}.
Definition setIsUploading (b : bool) (r : RoomState) : RoomState :=
  {| isSharing := isSharing r; hasStream := hasStream r;
     videoFileUrl := videoFileUrl r; streamMode := streamMode r;
     isUploading := b; videoRef := videoRef r;
     localVideoRef := localVideoRef r; syncIntervalRef := syncIntervalRef r |}.
Definition set_videoRef (v : option HTMLVideoElement) (r : RoomState) : RoomState :=
  {| isSharing := isSharing r; hasStream := hasStream r;
     videoFileUrl := videoFileUrl r; streamMode := streamMode r;
     isUploading := isUploading r; videoRef := v;
     localVideoRef := localVideoRef r; syncIntervalRef := syncIntervalRef r |}.
Definition set_localVideoRef (v : option HTMLVideoElement) (r : RoomState) : RoomState :=
  {| isSharing := isSharing r; hasStream := hasStream r;
     videoFileUrl := videoFileUrl r; streamMode := streamMode r;
     isUploading := isUploading r; videoRef := videoRef r;
     localVideoRef := v; syncIntervalRef := syncIntervalRef r |}.
Definition set_syncIntervalRef (t : option nat) (r : RoomState) : RoomState :=
  {| isSharing := isSharing r; hasStream := hasStream r;
     videoFileUrl := videoFileUrl r; streamMode := streamMode r;
     isUploading := isUploading r; videoRef := videoRef r;
     localVideoRef := localVideoRef r; syncIntervalRef := t |}.

(** ** Handlers: state plus abrupt completion

    A handler either completes or throws (an [async] handler: its promise
    rejects).  Either way the mutations made so far stay. *)

Inductive Completion (A : Type) :=
| Normal (a : A)
| Thrown (e : string).
Arguments Thrown {A} e.

Definition M (A : Type) := App -> Completion A * App.

Definition ret {A} (a : A) : M A := fun s => (Normal a, s).
Definition throw {A} (e : string) : M A := fun s => (Thrown e, s).
Definition bind {A B} (m : M A) (k : A -> M B) : M B :=
  fun s => match m s with
           | (Normal a, s') => k a s'
           | (Thrown e, s') => (Thrown e, s')
           end.
(** [try { m } catch { }] *)
Definition try_ (m : M unit) : M unit :=
  fun s => match m s with
           | (Normal a, s') => (Normal a, s')
           | (Thrown _, s') => (Normal tt, s')
           end.
Definition modify (f : App -> App) : M unit := fun s => (Normal tt, f s).
(** A call into the browser: logged, its result read from the environment
    as a function of what happened before it. *)
Definition call {A} (e : Effect) (result : list Effect -> A) : M A :=
  fun s => (Normal (result (log s)), emit e s).
(** A call whose outcome the program does not look at. *)
Definition perform {A} (e : Effect) (result : list Effect -> A) : M unit :=
  fun s => (Normal tt, snd (call e result s)).
Definition get {A} (f : App -> A) : M A := fun s => (Normal (f s), s).

Notation "x <- m ;; k" := (bind m (fun x => k))
  (at level 61, m at next level, right associativity).
Notation "m ;;; k" := (bind m (fun _ => k))
  (at level 61, right associativity).

Fixpoint forEach {A} (f : A -> M unit) (l : list A) : M unit :=
  match l with
  | [] => ret tt
  | x :: rest => f x ;;; forEach f rest
  end.

Definition when (b : bool) (m : M unit) : M unit :=
  if b then m else ret tt.

(** The resulting state, whatever the completion. *)
Definition exec {A} (m : M A) (s : App) : App := snd (m s).
Definition completes {A} (m : M A) (s : App) : bool :=
  match fst (m s) with Normal _ => true | Thrown _ => false end.

(** The effects a handler appended to the log. *)
Definition emitted {A} (m : M A) (s : App) : list Effect :=
  skipn (List.length (log s)) (log (exec m s)).

Definition sends (l : list Effect) : list SignalMessage :=
  flat_map (fun e => match e with Send _ m => [m] | _ => [] end) l.

(** ** [useWebRTC] and the [Room] callbacks it is given *)

Section UseWebRTC.
Variable roomId : string.
Variable peerId : PeerId.
Variable isHost : bool.
Variable B : Browser.

(** [channelRef.current?.send(...)] *)
Definition sendSignal (payload : SignalMessage) : M unit :=
  channel <- get (fun s => channelRef (hook s)) ;;
  match channel with
  | Some c => modify (emit (Send c payload))
  | None => ret tt
  end.

Definition sendControlSignal (action : ControlAction)
    (payload : option ControlPayload) (to_ : option PeerId) : M unit :=
  sendSignal {| body := control action payload; from := peerId; to := to_ |}.

(** *** Room: callbacks handed to the hook *)

(** ToNumber of an optional number: [undefined] becomes [NaN]. *)
Definition to_number (o : option float) : float :=
  match o with Some x => x | None => nan end.

(** Assigning [currentTime]: a non-finite value is a TypeError. *)
Definition assign_currentTime (vid : HTMLVideoElement) (x : float) : M unit :=
  if is_finite x
  then modify (upd_room (set_videoRef (Some (with_currentTime vid x))))
  else throw "TypeError".

(** [el.play().catch(() => {})] *)
Definition play_ (el : HTMLVideoElement) : M HTMLVideoElement :=
  allowed <- call Play (playAllowed B) ;;
  ret (if allowed then with_paused el false else el).

Definition handleControlReceived (action : ControlAction)
    (payload : option ControlPayload) : M unit :=
  if isHost then ret tt else
  vid <- get (fun s => videoRef (room s)) ;;
  match vid with
  | None => ret tt
  | Some vid =>
      match action with
      | file_url =>
          modify (upd_room (setStreamMode file)) ;;;
          match payload with
          | None => throw "TypeError"
          | Some p =>
              modify (upd_room (setVideoFileUrl (url p))) ;;;
              modify (upd_room (setHasStream true)) ;;;
              modify (upd_room (set_videoRef (Some
                {| srcObject := None;
                   src := match url p with Some u => u | None => "undefined" end;
                   muted := false; controls := false;
                   currentTime := currentTime vid; paused := paused vid;
                   bound := bound vid |})))
          end
      | play =>
          vid' <- play_ vid ;;
          modify (upd_room (set_videoRef (Some vid')))
      | pause =>
          modify (upd_room (set_videoRef (Some (with_paused vid true))))
      | seek =>
          match payload with
          | None => throw "TypeError"
          | Some p => assign_currentTime vid (to_number (time p))
          end
      | sync =>
          match payload with
          | None => throw "TypeError"
          | Some p =>
              let adminTime := to_number (time p) in
              let drift := abs (currentTime vid - adminTime)%float in
              if (0.3 <? drift)%float && negb (paused vid)
              then assign_currentTime vid adminTime
              else ret tt
          end
      end
  end.

Definition onStreamReceived (stream : MediaStream) : M unit :=
  modify (upd_room (setStreamMode screen)) ;;;
  modify (upd_room (setHasStream true)) ;;;
  vid <- get (fun s => videoRef (room s)) ;;
  match vid with
  | None => ret tt
  | Some vid =>
      vid' <- play_ {| srcObject := Some stream; src := ""; muted := muted vid;
                       controls := controls vid; currentTime := currentTime vid;
                       paused := paused vid; bound := bound vid |} ;;
      modify (upd_room (set_videoRef (Some vid')))
  end.

Definition onHostStopped : M unit :=
  modify (upd_room (setHasStream false)) ;;;
  modify (upd_room (fun r =>
    match videoRef r with
    | None => r
    | Some vid =>
        set_videoRef (Some {| srcObject := None; src := src vid;
                              muted := muted vid; controls := controls vid;
                              currentTime := currentTime vid;
                              paused := paused vid; bound := bound vid |}) r
    end)).

(** [onViewerReadyRef.current], as installed by the Room effect. *)
Definition onViewerReady (viewerId : PeerId) : M unit :=
  r <- get room ;;
  match streamMode r with
  | screen => ret tt
  | file =>
      if isSharing r && option_truthy (videoFileUrl r) then
        sendControlSignal file_url
          (Some {| time := None; url := videoFileUrl r |}) (Some viewerId) ;;;
        sendControlSignal seek
          (Some {| time := Some (number_or
                      (to_number (option_map currentTime (localVideoRef r))) 0%float);
                   url := None |}) (Some viewerId) ;;;
        match localVideoRef r with
        | Some lv => when (negb (paused lv))
                       (sendControlSignal play None (Some viewerId))
        | None => ret tt
        end
      else ret tt
  end.

(** *** The hook *)

Definition createPeerConnection (remotePeerId : PeerId) : M nat :=
  pc <- get fresh ;;
  modify bump ;;;
  modify (emit (NewPeerConnection pc remotePeerId)) ;;;
  modify (upd_hook (fun h =>
    set_peerConnections (JsMap.set remotePeerId pc (peerConnections h)) h)) ;;;
  ret pc.

(** [pc.onicecandidate], for the connection created for [remotePeerId]. *)
Definition onicecandidate (remotePeerId : PeerId)
    (candidate : option RTCIceCandidateInit) : M unit :=
  match candidate with
  | Some c => sendSignal {| body := ice_candidate (Some c); from := peerId;
                            to := Some remotePeerId |}
  | None => ret tt
  end.

(** [pc.ontrack] *)
Definition ontrack (streams : list MediaStream) : M unit :=
  match streams with
  | stream :: _ => if isHost then ret tt else onStreamReceived stream
  | [] => ret tt
  end.

Definition startSharing (customStream : option MediaStream)
    : M (option MediaStream) :=
  stream <- match customStream with
            | Some s => ret (Some s)
            | None => call GetDisplayMedia (getDisplayMedia B)
            end ;;
  match stream with
  | None => ret None (* caught: "Error getting display media" *)
  | Some stream =>
      modify (upd_hook (set_localStreamRef (Some stream))) ;;;
      sendSignal {| body := host_started; from := peerId; to := None |} ;;;
      ret (Some stream)
  end.

Definition includes (needle s : string) : bool :=
  match String.index 0 needle s with Some _ => true | None => false end.

Definition getScore (mimeType : string) : nat :=
  if includes "VP9" mimeType then 3
  else if includes "VP8" mimeType then 2
  else if includes "H264" mimeType then 1
  else 0.

(** [codecs.sort((a, b) => getScore(b.mimeType) - getScore(a.mimeType))]:
    descending score, stable. *)
Fixpoint insertCodec (c : string) (sorted : list string) : list string :=
  match sorted with
  | [] => [c]
  | d :: rest => if Nat.leb (getScore d) (getScore c) then c :: d :: rest
                 else d :: insertCodec c rest
  end.
Definition sortedCodecs (codecs : list string) : list string :=
  fold_right insertCodec [] codecs.

(** Await a promise that carries nothing: [false] is a rejection. *)
Definition await_ok (e : Effect) (result : list Effect -> bool) : M unit :=
  ok <- call e result ;;
  if ok then ret tt else throw "rejected".

(** Await a promise that carries a value: [None] is a rejection. *)
Definition await_value {A} (e : Effect) (result : list Effect -> option A) : M A :=
  r <- call e result ;;
  match r with Some a => ret a | None => throw "rejected" end.

Definition sendOfferToViewer (viewerId : PeerId) : M unit :=
  ls <- get (fun s => localStreamRef (hook s)) ;;
  match ls with
  | None => ret tt
  | Some stream =>
      pc <- createPeerConnection viewerId ;;
      forEach (fun track =>
        modify (emit (AddTrack pc track)) ;;;
        match kind track with
        | video => try_ (await_ok (SetParameters pc track)
                                  (fun l => setParameters B l pc track))
        | audio => ret tt
        end) (getTracks stream) ;;;
      (* one transceiver per added track *)
      forEach (fun t =>
        match getCapabilities B with
        | Some codecs =>
            let sorted := sortedCodecs codecs in
            try_ (await_ok (SetCodecPreferences pc sorted)
                           (fun l => setCodecPreferences B l pc sorted))
        | None => ret tt
        end) (getVideoTracks stream) ;;;
      offer_ <- await_value (CreateOffer pc) (fun l => createOffer B l pc) ;;
      await_ok (SetLocalDescription pc offer_)
               (fun l => setLocalDescription B l pc offer_) ;;;
      sendSignal {| body := offer offer_; from := peerId; to := Some viewerId |}
  end.

(** [localStreamRef.current?.getTracks().forEach((t) => t.stop())] *)
Definition stopTracks : M unit :=
  ls <- get (fun s => localStreamRef (hook s)) ;;
  match ls with
  | Some stream =>
      forEach (fun t => perform (TrackStop t) (fun l => trackStopped B l t))
              (getTracks stream)
  | None => ret tt
  end.

(** [forEach((pc) => pc.close())] then [clear()] *)
Definition closeAll : M unit :=
  pcs <- get (fun s => JsMap.values (peerConnections (hook s))) ;;
  forEach (fun pc => perform (Close pc) (fun l => connectionClosed B l pc)) pcs ;;;
  modify (upd_hook (set_peerConnections JsMap.empty)).

Definition stopSharing : M unit :=
  stopTracks ;;;
  modify (upd_hook (set_localStreamRef None)) ;;;
  closeAll ;;;
  sendSignal {| body := host_stopped; from := peerId; to := None |}.

(** The two guards at the head of [handleSignal]. *)
Definition ignored (payload : SignalMessage) : bool :=
  String.eqb (from payload) peerId
  || (option_truthy (to payload)
      && negb (match to payload with
               | Some t => String.eqb t peerId
               | None => false
               end)).

Definition handleSignal (payload : SignalMessage) : M unit :=
  if String.eqb (from payload) peerId then ret tt (* ignore self *)
  else if option_truthy (to payload)
          && negb (match to payload with
                   | Some t => String.eqb t peerId
                   | None => false
                   end)
  then ret tt (* not for us *)
  else
  match body payload, isHost with
  | host_started, false =>
      sendSignal {| body := viewer_ready; from := peerId; to := None |}
  | viewer_ready, true =>
      onViewerReady (from payload) ;;;
      sendOfferToViewer (from payload)
  | offer sdp, false =>
      pc <- createPeerConnection (from payload) ;;
      await_ok (SetRemoteDescription pc sdp)
               (fun l => setRemoteDescription B l pc sdp) ;;;
      answer_ <- await_value (CreateAnswer pc) (fun l => createAnswer B l pc) ;;
      await_ok (SetLocalDescription pc answer_)
               (fun l => setLocalDescription B l pc answer_) ;;;
      sendSignal {| body := answer answer_; from := peerId;
                    to := Some (from payload) |}
  | answer sdp, true =>
      pcs <- get (fun s => peerConnections (hook s)) ;;
      match JsMap.get (from payload) pcs with
      | Some pc => await_ok (SetRemoteDescription pc sdp)
                            (fun l => setRemoteDescription B l pc sdp)
      | None => ret tt
      end
  | ice_candidate candidate, _ =>
      pcs <- get (fun s => peerConnections (hook s)) ;;
      match JsMap.get (from payload) pcs, candidate with
      | Some pc, Some c =>
          try_ (await_ok (AddIceCandidate pc c)
                         (fun l => addIceCandidate B l pc c))
      | _, _ => ret tt
      end
  | host_stopped, false =>
      onHostStopped ;;;
      closeAll
  | control action payload_, false =>
      handleControlReceived action payload_
  | _, _ => ret tt
  end.

(** The channel effect: set-up, the subscribe callback, clean-up. *)
Definition subscribeChannel : M unit :=
  c <- get fresh ;;
  modify bump ;;;
  modify (emit (Subscribe c)) ;;;
  modify (upd_hook (set_channelRef (Some c))).

Definition onStatus (status : ChannelStatus) : M unit :=
  match status with
  | SUBSCRIBED =>
      if isHost then ret tt
      else sendSignal {| body := viewer_ready; from := peerId; to := None |}
  | _ => ret tt
  end.

Definition cleanup (channel : nat) : M unit :=
  modify (emit (Unsubscribe channel)) ;;;
  stopTracks ;;;
  closeAll.

(** *** Room: the host's controls *)

Definition clearSyncInterval : M unit :=
  t <- get (fun s => syncIntervalRef (room s)) ;;
  match t with
  | Some (S n) => modify (emit (ClearInterval (S n)))
  | _ => ret tt
  end.

Definition handleStopShare : M unit :=
  stopSharing ;;;
  modify (upd_room (setIsSharing false)) ;;;
  modify (upd_room (setHasStream false)) ;;;
  modify (upd_room (setVideoFileUrl None)) ;;;
  clearSyncInterval ;;;
  modify (upd_room (fun r =>
    match localVideoRef r with
    | Some lv =>
        set_localVideoRef (Some {| srcObject := None; src := "";
                                   muted := true; controls := false;
                                   currentTime := currentTime lv;
                                   paused := paused lv; bound := bound lv |}) r
    | None => r
    end)) ;;;
  modify (upd_room (fun r =>
    match videoRef r with
    | Some v =>
        set_videoRef (Some {| srcObject := None; src := "";
                              muted := muted v; controls := controls v;
                              currentTime := currentTime v;
                              paused := paused v; bound := bound v |}) r
    | None => r
    end)).

Definition handleStartShare : M unit :=
  modify (upd_room (setVideoFileUrl None)) ;;;
  modify (upd_room (fun r =>
    match localVideoRef r with
    | Some lv =>
        set_localVideoRef (Some {| srcObject := srcObject lv; src := "";
                                   muted := true; controls := false;
                                   currentTime := currentTime lv;
                                   paused := paused lv; bound := bound lv |}) r
    | None => r
    end)) ;;;
  stream <- startSharing None ;;
  match stream with
  | None => ret tt
  | Some stream =>
      modify (upd_room (setIsSharing true)) ;;;
      modify (upd_room (setHasStream true)) ;;;
      lv <- get (fun s => localVideoRef (room s)) ;;
      match lv with
      | Some lv =>
          lv' <- play_ {| srcObject := Some stream; src := src lv;
                          muted := muted lv; controls := controls lv;
                          currentTime := currentTime lv;
                          paused := paused lv; bound := bound lv |} ;;
          modify (upd_room (set_localVideoRef (Some lv')))
      | None => ret tt
      end
  end.

(** [now] is [Date.now()], [name] the chosen file's name. *)
Definition handleFileUpload (now : string) (chosen : option string) : M unit :=
  match chosen with
  | None => ret tt
  | Some name =>
      sharing <- get (fun s => isSharing (room s)) ;;
      when sharing handleStopShare ;;;
      modify (upd_room (setIsUploading true)) ;;;
      let fileName := (roomId ++ "_" ++ now ++ "_" ++ name)%string in
      r <- call (Upload fileName) (fun l => upload B l fileName) ;;
      match r with
      | None => modify (upd_room (setIsUploading false))
      | Some publicUrl =>
          modify (upd_room (setVideoFileUrl (Some publicUrl))) ;;;
          modify (upd_room (setIsSharing true)) ;;;
          modify (upd_room (setHasStream true)) ;;;
          sendControlSignal file_url
            (Some {| time := None; url := Some publicUrl |}) None ;;;
          lv <- get (fun s => localVideoRef (room s)) ;;
          match lv with
          | Some lv =>
              clearSyncInterval ;;;
              t <- get fresh ;;
              modify bump ;;;
              modify (emit (SetInterval t)) ;;;
              modify (upd_room (set_syncIntervalRef (Some t))) ;;;
              lv' <- play_ {| srcObject := None; src := publicUrl;
                              muted := false; controls := true;
                              currentTime := currentTime lv;
                              paused := paused lv; bound := true |} ;;
              modify (upd_room (set_localVideoRef (Some lv')))
          | None => ret tt
          end ;;;
          modify (upd_room (setIsUploading false))
      end
  end.

(** The handlers bound to the host's preview element and the sync timer. *)
Definition onplay : M unit := sendControlSignal play None None.
Definition onpause : M unit := sendControlSignal pause None None.
Definition onseeked : M unit :=
  lv <- get (fun s => localVideoRef (room s)) ;;
  sendControlSignal seek
    (Some {| time := option_map currentTime lv; url := None |}) None.
Definition syncTick : M unit :=
  lv <- get (fun s => localVideoRef (room s)) ;;
  match lv with
  | Some lv =>
      when (negb (paused lv))
        (sendControlSignal sync
           (Some {| time := Some (currentTime lv); url := None |}) None)
  | None => ret tt
  end.

(** *** Everything that can happen to a participant *)

Inductive Event :=
| Mounted                                     (* the channel effect runs *)
| Unmounted
| Status (status : ChannelStatus)             (* subscribe callback *)
| Broadcast (payload : SignalMessage)         (* a signal is delivered *)
| IceCandidate (remotePeerId : PeerId) (c : option RTCIceCandidateInit)
| TrackReceived (streams : list MediaStream)
| ClickStartShare
| ClickStopShare
| ClickMode (m : StreamMode)
| FileChosen (now : string) (chosen : option string)
| CaptureEnded                                (* the browser's stop-sharing button *)
| PreviewPlay
| PreviewPause
| PreviewSeeked (t : float)
| SyncTimer
| Elapsed (host_side : bool) (t : float).     (* playback moved on *)

Definition hostOnly (m : M unit) : M unit :=
  if isHost then m else ret tt.

Definition whenBound (m : M unit) : M unit :=
  lv <- get (fun s => localVideoRef (room s)) ;;
  match lv with
  | Some lv => when (bound lv) m
  | None => ret tt
  end.

Definition updPreview (f : HTMLVideoElement -> HTMLVideoElement) : M unit :=
  modify (upd_room (fun r =>
    match localVideoRef r with
    | Some lv => set_localVideoRef (Some (f lv)) r
    | None => r
    end)).

Definition handle (e : Event) : M unit :=
  match e with
  | Mounted => subscribeChannel
  | Unmounted =>
      c <- get (fun s => channelRef (hook s)) ;;
      match c with Some c => cleanup c | None => ret tt end
  | Status status => onStatus status
  | Broadcast payload => handleSignal payload
  | IceCandidate remotePeerId c => onicecandidate remotePeerId c
  | TrackReceived streams => ontrack streams
  | ClickStartShare => hostOnly handleStartShare
  | ClickStopShare => hostOnly handleStopShare
  | ClickMode m => hostOnly (modify (upd_room (setStreamMode m)))
  | FileChosen now chosen => hostOnly (handleFileUpload now chosen)
  | CaptureEnded => hostOnly handleStopShare
  | PreviewPlay => updPreview (fun lv => with_paused lv false) ;;; whenBound onplay
  | PreviewPause => updPreview (fun lv => with_paused lv true) ;;; whenBound onpause
  | PreviewSeeked t => updPreview (fun lv => with_currentTime lv t) ;;; whenBound onseeked
  | SyncTimer => hostOnly syncTick
  | Elapsed true t => updPreview (fun lv => with_currentTime lv t)
  | Elapsed false t =>
      modify (upd_room (fun r =>
        match videoRef r with
        | Some v => set_videoRef (Some (with_currentTime v t)) r
        | None => r
        end))
  end.

(** A handler that throws leaves the page running: the next event finds
    the state the failed handler left. *)
Fixpoint run (events : list Event) (s : App) : App :=
  match events with
  | [] => s
  | e :: rest => run rest (exec (handle e) s)
  end.

End UseWebRTC.

(** A participant before anything has happened, both video elements
    rendered. *)
Definition blankVideo : HTMLVideoElement :=
  {| srcObject := None; src := ""; muted := false; controls := false;
     currentTime := 0%float; paused := true; bound := false |}.

Definition initial : App :=
  {| hook := {| peerConnections := JsMap.empty; channelRef := None;
                localStreamRef := None |};
     room := {| isSharing := false; hasStream := false; videoFileUrl := None;
                streamMode := screen; isUploading := false;
                videoRef := Some blankVideo;
                localVideoRef :=
                  Some {| srcObject := None; src := ""; muted := true;
                          controls := false; currentTime := 0%float;
                          paused := true; bound := false |};
                syncIntervalRef := None |};
     log := [];
     fresh := 1 |}.

(** A browser in which every call succeeds; capture yields one video and
    one audio track. *)
Definition captured : MediaStream :=
  {| getTracks := [ {| track_id := 0; kind := video |};
                    {| track_id := 1; kind := audio |} ] |}.

Definition obliging : Browser :=
  {| getDisplayMedia := fun _ => Some captured;
     createOffer := fun _ _ => Some "offer-sdp";
     createAnswer := fun _ _ => Some "answer-sdp";
     setLocalDescription := fun _ _ _ => true;
     setRemoteDescription := fun _ _ _ => true;
     addIceCandidate := fun _ _ _ => true;
     setParameters := fun _ _ _ => true;
     getCapabilities := Some ["video/H264"; "video/VP8"; "video/VP9"; "video/rtx"];
     setCodecPreferences := fun _ _ _ => true;
     playAllowed := fun _ => true;
     upload := fun _ name => Some ("https://cdn/" ++ name)%string;
     trackStopped := fun _ _ => true;
     connectionClosed := fun _ _ => true |}.

(** A browser that refuses whatever it may refuse. *)
Definition hostile : Browser :=
  {| getDisplayMedia := fun _ => None;
     createOffer := fun _ _ => None;
     createAnswer := fun _ _ => None;
     setLocalDescription := fun _ _ _ => false;
     setRemoteDescription := fun _ _ _ => false;
     addIceCandidate := fun _ _ _ => false;
     setParameters := fun _ _ _ => false;
     getCapabilities := None;
     setCodecPreferences := fun _ _ _ => false;
     playAllowed := fun _ => false;
     upload := fun _ _ => None;
     trackStopped := fun _ _ => false;
     connectionClosed := fun _ _ => false |}.

(** * Vocabulary of the statements *)

(** A handler [respects] a relation [R] on states when every run of it
    relates the state it starts in to the state it leaves, whether it
    completes or throws. *)
Definition respects (R : App -> App -> Prop) {A} (m : M A) : Prop :=
  forall s, R s (snd (m s)).

(** A handler is [total] when it cannot throw. *)
Definition total {A} (m : M A) : Prop := forall s, exists a, fst (m s) = Normal a.

(** The log grows, by effects that all satisfy [P]. *)
Definition grows (P : Effect -> Prop) (s s' : App) : Prop :=
  exists l, log s' = log s ++ l /\ Forall P l.

(** An invariant, once true, stays true. *)
Definition keeps (I : App -> Prop) (s s' : App) : Prop := I s -> I s'.

(** An observation of the state does not move. *)
Definition fixes {X} (obs : App -> X) (s s' : App) : Prop := obs s' = obs s.

(** What the offer path may put on the wire: one [offer], addressed to the
    viewer it was built for. *)
Definition offerTo (peerId viewerId : PeerId) (e : Effect) : Prop :=
  match e with
  | Send _ m => exists sdp,
      m = {| body := offer sdp; from := peerId; to := Some viewerId |}
  | NewPeerConnection _ remote => remote = viewerId
  | _ => True
  end.

(** What the Room callback may put on the wire for a late joiner: control
    messages [file-url], [seek], [play], addressed to that viewer. *)
Definition lateJoinControl (peerId viewerId : PeerId) (e : Effect) : Prop :=
  exists c a p,
    e = Send c {| body := control a p; from := peerId; to := Some viewerId |}
    /\ (a = file_url \/ a = seek \/ a = play).

(** [localStreamRef.current?.getTracks()], nothing when the ref is null. *)
Definition tracksOf (ls : option MediaStream) : list MediaStreamTrack :=
  match ls with Some stream => getTracks stream | None => [] end.

(** Transport sessions allocated for [P] by the effects [l]. *)
Definition allocations (P : PeerId) (l : list Effect) : nat :=
  List.length (filter (fun e => match e with
                                | NewPeerConnection _ remote => String.eqb remote P
                                | _ => false
                                end) l).

(** The registry never holds two entries for one peer. *)
Definition registryFunctional (s : App) : Prop :=
  JsMap.functional (peerConnections (hook s)).

(** Effects that create or destroy a transport session. *)
Definition noSessionEffect (e : Effect) : Prop :=
  match e with
  | NewPeerConnection _ _ | Close _ => False
  | _ => True
  end.

(** The registry stands still and no session is created or closed. *)
Definition settled (s s' : App) : Prop :=
  peerConnections (hook s') = peerConnections (hook s)
  /\ fresh s' = fresh s
  /\ localStreamRef (hook s') = localStreamRef (hook s)
  /\ grows noSessionEffect s s'.

(** The rule for one signal [x] emitted while handling event [e]. *)
Definition negotiationRule (peerId : PeerId) (isHost : bool) (e : Event)
    (x : SignalMessage) : Prop :=
  (is_answer x = true ->
   isHost = false
   /\ exists m sdp, e = Broadcast m /\ body m = offer sdp
                    /\ ignored peerId m = false /\ to x = Some (from m))
  /\
  (is_offer x = true ->
   isHost = true
   /\ exists m, e = Broadcast m /\ body m = viewer_ready
                /\ ignored peerId m = false /\ to x = Some (from m)).

(** An effect obeys a rule on signals when it is no send, or sends a signal
    the rule admits. *)
Definition obeys (rule : SignalMessage -> Prop) (eff : Effect) : Prop :=
  match eff with
  | Send _ x => rule x
  | _ => True
  end.

(** The channel effect has run: [channelRef.current] is set. *)
Definition subscribed (s : App) : Prop := channelRef (hook s) <> None.

(** An effect that sends no signal of the kind [test] recognises. *)
Definition silentAbout (test : SignalMessage -> bool) (e : Effect) : Prop :=
  match e with
  | Send _ x => test x = false
  | _ => True
  end.

(** The events on which a Viewer sends [viewer-ready]: a [SUBSCRIBED]
    status, and a [host-started] that passes the guards. *)
Definition announces (peerId : PeerId) (e : Event) : bool :=
  match e with
  | Status SUBSCRIBED => true
  | Broadcast m => negb (ignored peerId m) && is_host_started m
  | _ => false
  end.

(** How many [viewer-ready] signals the effects [l] send. *)
Definition viewerReadyCount (l : list Effect) : nat :=
  List.length (filter is_viewer_ready (sends l)).

(** No capture stream is held. *)
Definition noStream (s : App) : Prop := localStreamRef (hook s) = None.

(** A signal of a kind the role has no branch for: a Host is sent an
    [offer], [host-started], [host-stopped] or [control]; a Viewer an
    [answer] or [viewer-ready]. *)
Definition misdirected (isHost : bool) (b : SignalBody) : bool :=
  match b, isHost with
  | offer _, true | host_started, true | host_stopped, true
  | control _ _, true => true
  | answer _, false | viewer_ready, false => true
  | _, _ => false
  end.

(** The preview element carries no [onplay]/[onpause]/[onseeked] handler. *)
Definition previewUnbound (s : App) : Prop :=
  match localVideoRef (room s) with
  | Some lv => bound lv = false
  | None => True
  end.

(** The signals a Viewer sends: [viewer-ready], [answer], [ice-candidate]. *)
Definition viewerSignal (x : SignalMessage) : bool :=
  match body x with
  | viewer_ready | answer _ | ice_candidate _ => true
  | _ => false
  end.

(** A browser that accepts every step of a negotiation: it produces
    offers and answers, and takes local and remote descriptions. *)
Definition negotiates (B : Browser) : Prop :=
  (forall l pc, createOffer B l pc <> None)
  /\ (forall l pc, createAnswer B l pc <> None)
  /\ (forall l pc sdp, setLocalDescription B l pc sdp = true)
  /\ (forall l pc sdp, setRemoteDescription B l pc sdp = true).

(** * Proofs *)

(** ** Small facts about the containers *)

Lemma skipn_length_app (A : Type) (l l' : list A) :
  skipn (List.length l) (l ++ l') = l'.
Proof. induction l as [|x l IH]; simpl; auto. Qed.

Lemma sends_app (l l' : list Effect) : sends (l ++ l') = sends l ++ sends l'.
Proof. unfold sends. apply flat_map_app. Qed.

Module JsMapFacts.
Section WithValue.
Variable V : Type.
Implicit Types (m : JsMap.t V) (k : string) (v : V).

Lemma get_set_same k v m : JsMap.get k (JsMap.set k v m) = Some v.
Proof.
  induction m as [|[k' v'] m IH]; simpl.
  - now rewrite String.eqb_refl.
  - destruct (String.eqb k k') eqn:E; simpl.
    + now rewrite String.eqb_refl.
    + now rewrite E.
Qed.

Lemma get_set_other k k' v m :
  k' <> k -> JsMap.get k' (JsMap.set k v m) = JsMap.get k' m.
Proof.
  intros Hne. induction m as [|[k0 v0] m IH]; simpl.
  - destruct (String.eqb_spec k' k); congruence.
  - destruct (String.eqb_spec k k0) as [->|Hk]; simpl.
    + destruct (String.eqb_spec k' k0); congruence.
    + destruct (String.eqb_spec k' k0); auto.
Qed.

Lemma entries_none k m : JsMap.get k m = None -> JsMap.entries k m = 0.
Proof.
  unfold JsMap.entries.
  induction m as [|[k' v'] m IH]; simpl; auto.
  destruct (String.eqb k k'); [discriminate | auto].
Qed.

Lemma entries_set k k' v m :
  JsMap.entries k' (JsMap.set k v m) =
  if String.eqb k' k
  then match JsMap.get k m with
     | Some _ => JsMap.entries k m
     | None => 1
     end
  else JsMap.entries k' m.
Proof.
  unfold JsMap.entries.
  destruct (String.eqb_spec k' k) as [->|Hne].
  - induction m as [|[k0 v0] m IH]; simpl.
    + now rewrite String.eqb_refl.
    + destruct (String.eqb_spec k k0) as [->|Hk]; simpl.
      * now rewrite String.eqb_refl.
      * destruct (String.eqb_spec k k0); [congruence|]. exact IH.
  - induction m as [|[k0 v0] m IH]; simpl.
    + destruct (String.eqb_spec k' k); [congruence | reflexivity].
    + destruct (String.eqb_spec k k0) as [->|Hk]; simpl.
      * destruct (String.eqb_spec k' k0); [congruence | reflexivity].
      * destruct (String.eqb k' k0); simpl; now rewrite IH.
Qed.

Lemma functional_empty : JsMap.functional (@JsMap.empty V).
Proof. intro k. unfold JsMap.entries. simpl. lia. Qed.

Lemma functional_set k v m : JsMap.functional m -> JsMap.functional (JsMap.set k v m).
Proof.
  intros H k'. rewrite entries_set.
  destruct (String.eqb k' k); [|apply H].
  destruct (JsMap.get k m); [apply H | lia].
Qed.

Lemma entries_some k v m :
  JsMap.functional m -> JsMap.get k m = Some v -> JsMap.entries k m = 1.
Proof.
  intros F G. specialize (F k).
  assert (JsMap.entries k m <> 0); [|lia].
  clear F. unfold JsMap.entries.
  induction m as [|[k' v'] m IH]; simpl in *; [discriminate|].
  destruct (String.eqb k k'); simpl; [lia | auto].
Qed.
End WithValue.
End JsMapFacts.

(** ** Reasoning about handlers

    A handler [respects] a preorder [R] on states when every run of it
    relates the state it starts in to the state it leaves, whether it
    completes or throws.  The combinators preserve this, so a property of a
    whole handler reduces to the same property of its primitive steps. *)

Section Respects.
Variable R : App -> App -> Prop.
Context {R_pre : PreOrder R}.

Lemma respects_ret A (a : A) : respects R (ret a).
Proof. intro s. simpl. reflexivity. Qed.

Lemma respects_throw A e : respects R (@throw A e).
Proof. intro s. simpl. reflexivity. Qed.

Lemma respects_get A (f : App -> A) : respects R (get f).
Proof. intro s. simpl. reflexivity. Qed.

Lemma respects_modify f : (forall s, R s (f s)) -> respects R (modify f).
Proof. intros H s. apply H. Qed.

Lemma respects_call A e (result : list Effect -> A) :
  (forall s, R s (emit e s)) -> respects R (call e result).
Proof. intros H s. apply H. Qed.

Lemma respects_perform A e (result : list Effect -> A) :
  (forall s, R s (emit e s)) -> respects R (perform e result).
Proof. intros H s. apply H. Qed.

Lemma respects_bind A C (m : M A) (k : A -> M C) :
  respects R m -> (forall a, respects R (k a)) -> respects R (bind m k).
Proof.
  intros Hm Hk s. unfold bind. specialize (Hm s).
  destruct (m s) as [[a|e] s']; simpl in *; auto.
  transitivity s'; auto. apply Hk.
Qed.

Lemma respects_try m : respects R m -> respects R (try_ m).
Proof.
  intros Hm s. unfold try_. specialize (Hm s).
  destruct (m s) as [[a|e] s']; simpl in *; auto.
Qed.

Lemma respects_when b m : respects R m -> respects R (when b m).
Proof. destruct b; simpl; auto using respects_ret. Qed.

Lemma respects_forEach A (f : A -> M unit) l :
  (forall a, respects R (f a)) -> respects R (forEach f l).
Proof.
  intro Hf. induction l as [|x l IH]; simpl.
  - apply respects_ret.
  - apply respects_bind; auto.
Qed.
End Respects.

Ltac respects_step :=
  lazymatch goal with
  | |- PreOrder _ => typeclasses eauto
  | |- forall _, _ => intro
  | |- respects _ (bind _ _) => apply respects_bind
  | |- respects _ (ret _) => apply respects_ret
  | |- respects _ (throw _) => apply respects_throw
  | |- respects _ (get _) => apply respects_get
  | |- respects _ (try_ _) => apply respects_try
  | |- respects _ (when _ _) => apply respects_when
  | |- respects _ (forEach _ _) => apply respects_forEach
  | |- respects _ (modify _) => apply respects_modify
  | |- respects _ (call _ _) => apply respects_call
  | |- respects _ (perform _ _) => apply respects_perform
  | |- respects _ (match ?x with _ => _ end) => destruct x
  | |- respects _ (let _ := _ in _) => cbv zeta
  end.

(** Everything a handler is made of, down to the combinators. *)
Ltac unfold_handlers :=
  unfold handle, hostOnly, whenBound, updPreview, handleFileUpload,
    handleStartShare, handleStopShare, clearSyncInterval, syncTick, onseeked,
    onpause, onplay, cleanup, onStatus, subscribeChannel, handleSignal,
    stopSharing, closeAll, stopTracks, sendOfferToViewer, await_value,
    await_ok, startSharing, ontrack, onicecandidate, createPeerConnection,
    onViewerReady, onHostStopped, onStreamReceived, handleControlReceived,
    play_, assign_currentTime, sendControlSignal, sendSignal.

Lemma total_ret A (a : A) : total (ret a).
Proof. intro s. now exists a. Qed.

Lemma total_get A (f : App -> A) : total (get f).
Proof. intro s. now exists (f s). Qed.

Lemma total_modify f : total (modify f).
Proof. intro s. now exists tt. Qed.

Lemma total_call A e (result : list Effect -> A) : total (call e result).
Proof. intro s. now exists (result (log s)). Qed.

Lemma total_perform A e (result : list Effect -> A) : total (perform e result).
Proof. intro s. now exists tt. Qed.

Lemma total_bind A C (m : M A) (k : A -> M C) :
  total m -> (forall a, total (k a)) -> total (bind m k).
Proof.
  intros Hm Hk s. unfold bind. destruct (Hm s) as [a Ha].
  destruct (m s) as [[a'|e] s']; simpl in *; [apply Hk | discriminate].
Qed.

Lemma total_try m : total (try_ m).
Proof.
  intro s. unfold try_. destruct (m s) as [[a|e] s']; simpl; eauto.
Qed.

Lemma total_when b m : total m -> total (when b m).
Proof. destruct b; simpl; auto using total_ret. Qed.

Lemma total_forEach A (f : A -> M unit) l :
  (forall a, total (f a)) -> total (forEach f l).
Proof.
  intro Hf. induction l as [|x l IH]; simpl.
  - apply total_ret.
  - apply total_bind; auto.
Qed.

Ltac total_step :=
  lazymatch goal with
  | |- forall _, _ => intro
  | |- total (bind _ _) => apply total_bind
  | |- total (ret _) => apply total_ret
  | |- total (get _) => apply total_get
  | |- total (try_ _) => apply total_try
  | |- total (when _ _) => apply total_when
  | |- total (forEach _ _) => apply total_forEach
  | |- total (modify _) => apply total_modify
  | |- total (call _ _) => apply total_call
  | |- total (perform _ _) => apply total_perform
  | |- total (match ?x with _ => _ end) => destruct x
  | |- total (let _ := _ in _) => cbv zeta
  end.

(** *** Three preorders *)

#[export] Instance grows_preorder P : PreOrder (grows P).
Proof.
  split.
  - intro s. exists []. now rewrite app_nil_r.
  - intros a b c [l [E F]] [l' [E' F']]. exists (l ++ l'). split.
    + now rewrite E', E, app_assoc.
    + apply Forall_app; auto.
Qed.

#[export] Instance keeps_preorder I : PreOrder (keeps I).
Proof. split; unfold keeps; intro; intros; auto. Qed.

#[export] Instance fixes_preorder X (obs : App -> X) : PreOrder (fixes obs).
Proof. split; unfold fixes; intro; intros; congruence. Qed.

Lemma grows_emitted P A (m : M A) s :
  respects (grows P) m -> Forall P (emitted m s).
Proof.
  intro H. destruct (H s) as [l [E F]].
  unfold emitted, exec. rewrite E. now rewrite skipn_length_app.
Qed.

Lemma grows_emit (P : Effect -> Prop) e s : P e -> grows P s (emit e s).
Proof. intro H. exists [e]. split; [reflexivity | auto]. Qed.

Lemma grows_upd_hook P f s : grows P s (upd_hook f s).
Proof. exists []. simpl. now rewrite app_nil_r. Qed.

Lemma grows_upd_room P f s : grows P s (upd_room f s).
Proof. exists []. simpl. now rewrite app_nil_r. Qed.

Lemma grows_bump P s : grows P s (bump s).
Proof. exists []. simpl. now rewrite app_nil_r. Qed.

Ltac grows_base :=
  first [ apply grows_upd_hook | apply grows_upd_room | apply grows_bump
        | apply grows_emit ].

Lemma emitted_nothing A (m : M A) s : exec m s = s -> emitted m s = [].
Proof. intro E. unfold emitted. rewrite E. apply skipn_all. Qed.

Lemma emitted_exactly A (m : M A) s l :
  log (exec m s) = log s ++ l -> emitted m s = l.
Proof. intro E. unfold emitted. rewrite E. apply skipn_length_app. Qed.

Lemma ignored_false peerId m :
  ignored peerId m = false ->
  String.eqb (from m) peerId = false /\
  option_truthy (to m)
    && negb (match to m with Some t => String.eqb t peerId | None => false end)
  = false.
Proof. unfold ignored. intro H. now apply orb_false_elim in H. Qed.

(** * The claims *)

(** ** C4: echo suppression and addressed filtering *)

(** C4 (as stated, refuted).  A signal whose [to] is the empty string has
    its [to] field set, and that differs from the local identity ["v"]; yet
    the guard [payload.to && payload.to !== peerId] reads the empty string
    as false, so the signal is processed like a broadcast: a viewer answers
    this [host-started] with a [viewer-ready]. *)
Lemma C4_empty_to_is_not_filtered :
  let s := run "ROOM" "v" false obliging [Mounted] initial in
  let m := {| body := host_started; from := "h"; to := Some "" |} in
  (exists t, to m = Some t /\ t <> "v") /\
  exec (handleSignal "v" false obliging m) s <> s /\
  sends (emitted (handleSignal "v" false obliging m) s)
  = [ {| body := viewer_ready; from := "v"; to := None |} ].
Proof.
  cbv zeta. split; [|split].
  - exists "". split; [reflexivity | discriminate].
  - vm_compute. discriminate.
  - vm_compute. reflexivity.
Qed.

(** C4 (amended).  For every inbound signal of every kind: if its [from] is
    the local peer identity, or its [to] is a non-empty identity other than
    the local one, handling it completes without changing the state and
    without emitting anything. *)
Theorem C4_filtered_signal_is_inert peerId isHost B m s :
  from m = peerId \/ (exists t, to m = Some t /\ t <> "" /\ t <> peerId) ->
  handleSignal peerId isHost B m s = (Normal tt, s) /\
  emitted (handleSignal peerId isHost B m) s = [].
Proof.
  intro H.
  assert (E : handleSignal peerId isHost B m s = (Normal tt, s)).
  { unfold handleSignal. destruct H as [H | [t [Ht [Hne Hp]]]].
    - rewrite H, String.eqb_refl. reflexivity.
    - destruct (String.eqb (from m) peerId); [reflexivity|].
      rewrite Ht. simpl. unfold string_truthy.
      destruct (String.eqb_spec t ""); [congruence|].
      destruct (String.eqb_spec t peerId); [congruence|]. reflexivity. }
  split; [exact E|]. apply emitted_nothing. unfold exec. now rewrite E.
Qed.

Lemma C4_filtered_signal_is_inert_witness :
  let m := {| body := offer "sdp"; from := "h"; to := Some "w" |} in
  handleSignal "v" false hostile m initial = (Normal tt, initial) /\
  emitted (handleSignal "v" false hostile m) initial = [].
Proof.
  apply (@C4_filtered_signal_is_inert "v" false hostile
           {| body := offer "sdp"; from := "h"; to := Some "w" |} initial).
  right. exists "w". repeat split; discriminate.
Defined.

(** ** C2: drift correction on [sync] *)

(** C2.  A viewer whose element shows local time [t] receives
    [sync{time: s}] ([s] a number, as JSON carries them).  The handler
    completes; the local time becomes [s] when [|t - s| > 0.3] and playback
    is not paused, and in every other case the state, local time included,
    is what it was. *)
Theorem C2_sync_snaps_iff_drift peerId B m p s vid st :
  ignored peerId m = false ->
  body m = control sync (Some p) ->
  time p = Some s ->
  is_finite s = true ->
  videoRef (room st) = Some vid ->
  handleSignal peerId false B m st =
  (Normal tt,
   if (0.3 <? abs (currentTime vid - s))%float && negb (paused vid)
   then upd_room (set_videoRef (Some (with_currentTime vid s))) st
   else st).
Proof.
  intros Hi Hb Ht Hf Hv. apply ignored_false in Hi. destruct Hi as [H1 H2].
  unfold handleSignal. rewrite H1, H2, Hb.
  unfold handleControlReceived, bind, get. simpl. rewrite Hv, Ht. simpl.
  destruct ((0.3 <? abs (currentTime vid - s))%float && negb (paused vid)).
  - unfold assign_currentTime. rewrite Hf. reflexivity.
  - reflexivity.
Qed.

(** The two instances the specification names: [t = 10.0] with [s = 10.2]
    stays at [10.0]; with [s = 10.5] it snaps to [10.5]. *)
Lemma C2_sync_snaps_iff_drift_witness :
  let playing t := {| srcObject := None; src := "https://cdn/a.mp4";
                      muted := false; controls := false; currentTime := t;
                      paused := false; bound := false |} in
  let at_ t := upd_room (set_videoRef (Some (playing t))) initial in
  let sync_ s := {| body := control sync (Some {| time := Some s; url := None |});
                    from := "h"; to := None |} in
  handleSignal "v" false obliging (sync_ 10.2%float) (at_ 10.0%float)
    = (Normal tt, at_ 10.0%float) /\
  handleSignal "v" false obliging (sync_ 10.5%float) (at_ 10.0%float)
    = (Normal tt, at_ 10.5%float).
Proof.
  cbv zeta. split.
  - rewrite (@C2_sync_snaps_iff_drift "v" obliging _
               {| time := Some 10.2%float; url := None |} 10.2%float
               {| srcObject := None; src := "https://cdn/a.mp4";
                  muted := false; controls := false; currentTime := 10.0%float;
                  paused := false; bound := false |});
      reflexivity.
  - rewrite (@C2_sync_snaps_iff_drift "v" obliging _
               {| time := Some 10.5%float; url := None |} 10.5%float
               {| srcObject := None; src := "https://cdn/a.mp4";
                  muted := false; controls := false; currentTime := 10.0%float;
                  paused := false; bound := false |});
      reflexivity.
Defined.

(** ** C3 and C10: a viewer announces itself to a host *)

Lemma sendSignal_grows (P : Effect -> Prop) m :
  (forall c, P (Send c m)) -> respects (grows P) (sendSignal m).
Proof.
  intro H. unfold sendSignal.
  repeat respects_step; grows_base; auto.
Qed.

Lemma createPeerConnection_grows (P : Effect -> Prop) remote :
  (forall pc, P (NewPeerConnection pc remote)) ->
  respects (grows P) (createPeerConnection remote).
Proof.
  intro H. unfold createPeerConnection.
  repeat respects_step; grows_base; auto.
Qed.

Lemma sendOfferToViewer_grows peerId B viewerId :
  respects (grows (offerTo peerId viewerId)) (sendOfferToViewer peerId B viewerId).
Proof.
  unfold sendOfferToViewer, await_ok, await_value.
  repeat first
    [ apply sendSignal_grows; intro; simpl; eauto
    | apply createPeerConnection_grows; intro; reflexivity
    | respects_step ];
    grows_base; exact I.
Qed.

Lemma offerTo_sends peerId viewerId l :
  Forall (offerTo peerId viewerId) l ->
  Forall (fun m => is_offer m = true /\ to m = Some viewerId) (sends l).
Proof.
  induction 1 as [|e l He _ IH]; simpl; [constructor|].
  destruct e; simpl; auto.
  destruct He as [sdp ->]. constructor; auto.
Qed.

(** The burst a late joiner gets, as the Room effect builds it. *)
Lemma onViewerReady_sharing_file peerId viewerId st c u :
  channelRef (hook st) = Some c ->
  streamMode (room st) = file ->
  isSharing (room st) = true ->
  videoFileUrl (room st) = Some u ->
  u <> "" ->
  onViewerReady peerId viewerId st =
  (Normal tt,
   let t := number_or (to_number (option_map currentTime (localVideoRef (room st))))
                      0%float in
   let burst :=
     [ {| body := control file_url (Some {| time := None; url := Some u |});
          from := peerId; to := Some viewerId |};
       {| body := control seek (Some {| time := Some t; url := None |});
          from := peerId; to := Some viewerId |} ]
     ++ match localVideoRef (room st) with
        | Some lv => if paused lv then []
                     else [ {| body := control play None; from := peerId;
                               to := Some viewerId |} ]
        | None => []
        end in
   fold_left (fun s m => emit (Send c m) s) burst st).
Proof.
  intros Hc Hm Hs Hu Hne.
  unfold onViewerReady, sendControlSignal, sendSignal, bind, get, modify.
  simpl. rewrite Hm, Hs, Hu. simpl. unfold string_truthy.
  destruct (String.eqb_spec u ""); [congruence|]. simpl.
  repeat (rewrite Hc; simpl).
  destruct (localVideoRef (room st)) as [lv|]; simpl; [|reflexivity].
  destruct (paused lv); simpl; [reflexivity|].
  repeat (rewrite Hc; simpl). reflexivity.
Qed.

Lemma log_fold_emit (l : list Effect) s :
  log (fold_left (fun s e => emit e s) l s) = log s ++ l.
Proof.
  revert s. induction l as [|e l IH]; intro s; simpl.
  - now rewrite app_nil_r.
  - rewrite IH. simpl. now rewrite <- app_assoc.
Qed.

Lemma fold_emit_map A (f : A -> Effect) (l : list A) s :
  fold_left (fun s a => emit (f a) s) l s
  = fold_left (fun s e => emit e s) (map f l) s.
Proof. revert s. induction l; intro s; simpl; auto. Qed.

Lemma hook_fold_emit (l : list Effect) s :
  hook (fold_left (fun s e => emit e s) l s) = hook s.
Proof. revert s. induction l as [|e l IH]; intro s; simpl; [|rewrite IH]; auto. Qed.

Lemma sends_map_Send c (l : list SignalMessage) : sends (map (Send c) l) = l.
Proof. induction l; simpl; congruence. Qed.

Lemma number_or_position (t : float) :
  t = 0%float \/ number_truthy t = true -> number_or t 0%float = t.
Proof.
  unfold number_or. intros [-> | H].
  - reflexivity.
  - now rewrite H.
Qed.

Lemma filter_control_offers (l : list SignalMessage) viewerId :
  Forall (fun m => is_offer m = true /\ to m = Some viewerId) l ->
  filter is_control l = [].
Proof.
  induction 1 as [|m l [Hm _] _ IH]; simpl; auto.
  unfold is_control, is_offer in *. destruct (body m); try discriminate; auto.
Qed.

Lemma addressed_elsewhere x viewerId other :
  to x = Some viewerId -> viewerId <> "" -> other <> viewerId ->
  ignored other x = true.
Proof.
  intros Ht Hne Ho. unfold ignored. rewrite Ht. simpl. unfold string_truthy.
  destruct (String.eqb_spec viewerId ""); [congruence|].
  destruct (String.eqb_spec viewerId other); [congruence|].
  apply orb_true_r.
Qed.

(** C3.  A host that is sharing a file ([streamMode] is ["file"],
    [isSharing], a file URL set) and whose preview element stands at
    [currentTime] handles a [viewer-ready].  The control messages it emits
    are exactly [file-url{url}], [seek{time: currentTime}] and, when the
    preview is not paused, [play], in this order; every signal emitted while
    handling the [viewer-ready] carries [to] = the originating viewer, so
    nothing is broadcast: every other peer discards each of them on arrival;
    and when no capture stream is held these control messages are all that
    is emitted. *)
Theorem C3_late_joiner_burst peerId B m st c u lv :
  ignored peerId m = false ->
  body m = viewer_ready ->
  channelRef (hook st) = Some c ->
  streamMode (room st) = file ->
  isSharing (room st) = true ->
  videoFileUrl (room st) = Some u ->
  u <> "" ->
  localVideoRef (room st) = Some lv ->
  currentTime lv = 0%float \/ number_truthy (currentTime lv) = true ->
  let burst :=
    [ {| body := control file_url (Some {| time := None; url := Some u |});
         from := peerId; to := Some (from m) |};
      {| body := control seek (Some {| time := Some (currentTime lv); url := None |});
         from := peerId; to := Some (from m) |} ]
    ++ (if paused lv then []
        else [ {| body := control play None; from := peerId;
                  to := Some (from m) |} ]) in
  let out := sends (emitted (handleSignal peerId true B m) st) in
  filter is_control out = burst /\
  Forall (fun x => to x = Some (from m)) out /\
  (from m <> "" ->
   forall other x, In x out -> other <> from m -> ignored other x = true) /\
  (localStreamRef (hook st) = None -> out = burst).
Proof.
  intros Hi Hb Hc Hm Hs Hu Hne Hlv Ht burst out.
  apply ignored_false in Hi. destruct Hi as [H1 H2].
  assert (Hv := @onViewerReady_sharing_file peerId (from m) st c u Hc Hm Hs Hu Hne).
  rewrite Hlv in Hv. simpl in Hv. rewrite (number_or_position Ht) in Hv.
  fold burst in Hv. rewrite fold_emit_map in Hv.
  set (st1 := fold_left (fun s e => emit e s) (map (Send c) burst) st) in Hv.
  assert (Hh : handleSignal peerId true B m st
               = sendOfferToViewer peerId B (from m) st1).
  { unfold handleSignal. rewrite H1, H2, Hb. unfold bind. now rewrite Hv. }
  destruct (sendOfferToViewer_grows peerId B (from m) st1) as [l [El Fl]].
  assert (Eo : out = burst ++ sends l).
  { unfold out. rewrite (@emitted_exactly _ _ _ (map (Send c) burst ++ l)).
    - now rewrite sends_app, sends_map_Send.
    - unfold exec. rewrite Hh, El. unfold st1.
      now rewrite log_fold_emit, app_assoc. }
  apply offerTo_sends in Fl.
  assert (Hb' : filter is_control burst = burst
                /\ Forall (fun x => to x = Some (from m)) burst).
  { unfold burst. destruct (paused lv); simpl; repeat constructor. }
  destruct Hb' as [Hb1 Hb2].
  assert (Hto : Forall (fun x => to x = Some (from m)) out).
  { rewrite Eo. apply Forall_app. split; [exact Hb2|].
    eapply Forall_impl; [|exact Fl]. simpl. tauto. }
  split; [|split; [|split]].
  - rewrite Eo, filter_app, Hb1, (filter_control_offers Fl). apply app_nil_r.
  - exact Hto.
  - intros Hfrom other x Hin Ho. rewrite Forall_forall in Hto.
    exact (@addressed_elsewhere x (from m) other (Hto x Hin) Hfrom Ho).
  - intro Hn. rewrite Eo.
    assert (E : sendOfferToViewer peerId B (from m) st1 = (Normal tt, st1)).
    { unfold sendOfferToViewer, bind, get. simpl.
      unfold st1. now rewrite hook_fold_emit, Hn. }
    rewrite E in El. simpl in El.
    assert (l = []) as ->.
    { apply (f_equal (@List.length _)) in El. rewrite length_app in El.
      destruct l; [reflexivity | simpl in El; lia]. }
    apply app_nil_r.
Qed.

(** The instance the specification names: file mode, sharing,
    [currentTime = 42.0], playing. *)
Lemma C3_late_joiner_burst_witness :
  let host := run "ROOM" "h" true obliging
                [Mounted; ClickMode file; FileChosen "17" (Some "a.mp4");
                 Elapsed true 42%float] initial in
  let m := {| body := viewer_ready; from := "v"; to := None |} in
  let burst :=
    [ {| body := control file_url
                   (Some {| time := None; url := Some "https://cdn/ROOM_17_a.mp4" |});
         from := "h"; to := Some "v" |};
      {| body := control seek (Some {| time := Some 42%float; url := None |});
         from := "h"; to := Some "v" |};
      {| body := control play None; from := "h"; to := Some "v" |} ] in
  let out := sends (emitted (handleSignal "h" true obliging m) host) in
  filter is_control out = burst /\
  Forall (fun x => to x = Some "v") out /\
  ("v" <> "" ->
   forall other x, In x out -> other <> "v" -> ignored other x = true) /\
  (localStreamRef (hook host) = None -> out = burst).
Proof.
  cbv zeta.
  refine (@C3_late_joiner_burst "h" obliging
            {| body := viewer_ready; from := "v"; to := None |}
            (run "ROOM" "h" true obliging
               [Mounted; ClickMode file; FileChosen "17" (Some "a.mp4");
                Elapsed true 42%float] initial)
            1 "https://cdn/ROOM_17_a.mp4"
            {| srcObject := None; src := "https://cdn/ROOM_17_a.mp4";
               muted := false; controls := true; currentTime := 42%float;
               paused := false; bound := true |}
            _ _ _ _ _ _ _ _ _);
    try reflexivity.
  - discriminate.
  - right. reflexivity.
Defined.

Lemma onViewerReady_grows peerId viewerId :
  respects (grows (lateJoinControl peerId viewerId)) (onViewerReady peerId viewerId).
Proof.
  unfold onViewerReady, sendControlSignal.
  repeat first
    [ apply sendSignal_grows; intro c; unfold lateJoinControl;
      do 3 eexists; split; [reflexivity | tauto]
    | respects_step ].
Qed.

Lemma onViewerReady_fixes X (obs : RoomState -> nat -> Refs -> X) peerId viewerId :
  respects (fixes (fun s => obs (room s) (fresh s) (hook s)))
           (onViewerReady peerId viewerId).
Proof.
  unfold onViewerReady, sendControlSignal, sendSignal.
  repeat respects_step; reflexivity.
Qed.

(** C10.  A host that holds no capture stream ([localStreamRef] is null, as
    it is while the media source is a file) handles a [viewer-ready]: the
    offer path returns at once, so handling the signal is just the Room
    callback; the registry and the other refs are untouched, no handle is
    allocated, and everything emitted is a control message ([file-url],
    [seek] or [play]) addressed to that viewer: no [offer], no peer
    connection. *)
Theorem C10_no_session_without_stream peerId B m st :
  ignored peerId m = false ->
  body m = viewer_ready ->
  localStreamRef (hook st) = None ->
  let st' := exec (handleSignal peerId true B m) st in
  handleSignal peerId true B m st = onViewerReady peerId (from m) st /\
  hook st' = hook st /\
  fresh st' = fresh st /\
  Forall (lateJoinControl peerId (from m))
         (emitted (handleSignal peerId true B m) st).
Proof.
  intros Hi Hb Hn st'.
  apply ignored_false in Hi. destruct Hi as [H1 H2].
  pose proof (@onViewerReady_fixes _ (fun _ f h => (f, h)) peerId (from m) st) as Hf.
  unfold fixes in Hf.
  assert (E : handleSignal peerId true B m st = onViewerReady peerId (from m) st).
  { unfold handleSignal. rewrite H1, H2, Hb. unfold bind.
    destruct (onViewerReady peerId (from m) st) as [[[]|e] s1] eqn:Ev;
      [|reflexivity].
    simpl in Hf. injection Hf as _ Hh.
    unfold sendOfferToViewer, bind, get. simpl. now rewrite Hh, Hn. }
  subst st'. unfold emitted, exec. rewrite E.
  injection Hf as Hfresh Hhook.
  repeat split; auto.
  apply (grows_emitted (m := onViewerReady peerId (from m))).
  apply onViewerReady_grows.
Qed.

Lemma C10_no_session_without_stream_witness :
  let host := run "ROOM" "h" true obliging
                [Mounted; ClickMode file; FileChosen "17" (Some "a.mp4")] initial in
  let m := {| body := viewer_ready; from := "v"; to := None |} in
  let st' := exec (handleSignal "h" true obliging m) host in
  handleSignal "h" true obliging m host = onViewerReady "h" "v" host /\
  hook st' = hook host /\
  fresh st' = fresh host /\
  Forall (lateJoinControl "h" "v") (emitted (handleSignal "h" true obliging m) host).
Proof.
  cbv zeta.
  apply (@C10_no_session_without_stream "h" obliging
           {| body := viewer_ready; from := "v"; to := None |}
           (run "ROOM" "h" true obliging
              [Mounted; ClickMode file; FileChosen "17" (Some "a.mp4")] initial));
    reflexivity.
Defined.

(** ** C8: ICE candidates *)

(** C8.  A participant of either role handles an [ice-candidate] signal
    that is meant for it.  The handler always completes: nothing is thrown
    to the caller, whatever the browser answers.  The refs (registry
    included), the Room state and the handle counter are left as they were.
    With no session registered for the sender the whole state is unchanged.
    With a session registered, [addIceCandidate] is called on it, with
    nothing asked about how far negotiation has got, and it is the only
    call made: whether it succeeds or fails, no connection is closed. *)
Theorem C8_ice_candidate peerId isHost B m cand st :
  ignored peerId m = false ->
  body m = ice_candidate cand ->
  let r := handleSignal peerId isHost B m st in
  fst r = Normal tt /\
  hook (snd r) = hook st /\
  room (snd r) = room st /\
  fresh (snd r) = fresh st /\
  match JsMap.get (from m) (peerConnections (hook st)), cand with
  | Some pc, Some c =>
      emitted (handleSignal peerId isHost B m) st = [AddIceCandidate pc c]
  | _, _ => snd r = st
  end.
Proof.
  intros Hi Hb r. subst r.
  apply ignored_false in Hi. destruct Hi as [H1 H2].
  unfold emitted, exec, handleSignal. rewrite H1, H2, Hb.
  destruct isHost; simpl;
    unfold bind, get; simpl;
    (destruct (JsMap.get (from m) (peerConnections (hook st))) as [pc|];
     [ destruct cand as [c|] | ]);
    simpl; auto using skipn_all;
    unfold try_, await_ok, bind, call; simpl;
    destruct (addIceCandidate B (log st) pc c); simpl;
    repeat split; auto; apply skipn_length_app.
Qed.

(** A hostile browser rejects the candidate; the handler still completes
    and the session stays registered. *)
Lemma C8_ice_candidate_witness :
  let viewer := run "ROOM" "v" false obliging
                  [Mounted; Broadcast {| body := offer "o"; from := "h";
                                         to := Some "v" |}] initial in
  let m := {| body := ice_candidate (Some "cand"); from := "h"; to := Some "v" |} in
  let r := handleSignal "v" false hostile m viewer in
  fst r = Normal tt /\
  hook (snd r) = hook viewer /\
  room (snd r) = room viewer /\
  fresh (snd r) = fresh viewer /\
  emitted (handleSignal "v" false hostile m) viewer = [AddIceCandidate 2 "cand"].
Proof.
  cbv zeta.
  apply (@C8_ice_candidate "v" false hostile
           {| body := ice_candidate (Some "cand"); from := "h"; to := Some "v" |}
           (Some "cand")
           (run "ROOM" "v" false obliging
              [Mounted; Broadcast {| body := offer "o"; from := "h";
                                     to := Some "v" |}] initial));
    reflexivity.
Defined.

(** ** C5 and C9: [stop()]

    [MediaStreamTrack.stop()] and [RTCPeerConnection.close()] do not throw:
    on a track that has ended, or a connection that is closed, they return
    having done nothing.  A release that fails is therefore one the program
    cannot see fail; the browser's [trackStopped] and [connectionClosed]
    say which ones do. *)

Lemma forEach_perform A X (f : A -> Effect) (g : A -> list Effect -> X)
    (l : list A) s :
  forEach (fun a => perform (f a) (g a)) l s
  = (Normal tt, fold_left (fun s e => emit e s) (map f l) s).
Proof.
  revert s. induction l as [|a l IH]; intro s; simpl; [reflexivity|].
  unfold bind, perform at 1. simpl. apply IH.
Qed.

Lemma stopTracks_spec B s :
  stopTracks B s
  = (Normal tt,
     fold_left (fun s e => emit e s)
               (map TrackStop (tracksOf (localStreamRef (hook s)))) s).
Proof.
  unfold stopTracks, bind, get. simpl.
  destruct (localStreamRef (hook s)); simpl; [apply forEach_perform | reflexivity].
Qed.

Lemma closeAll_spec B s :
  closeAll B s
  = (Normal tt,
     upd_hook (set_peerConnections JsMap.empty)
       (fold_left (fun s e => emit e s)
                  (map Close (JsMap.values (peerConnections (hook s)))) s)).
Proof.
  unfold closeAll, bind, get. simpl. rewrite forEach_perform. reflexivity.
Qed.

Lemma stopSharing_spec peerId B s :
  stopSharing peerId B s
  = (Normal tt,
     let released :=
       upd_hook (set_peerConnections JsMap.empty)
         (fold_left (fun s e => emit e s)
            (map Close (JsMap.values (peerConnections (hook s))))
            (upd_hook (set_localStreamRef None)
               (fold_left (fun s e => emit e s)
                  (map TrackStop (tracksOf (localStreamRef (hook s)))) s))) in
     match channelRef (hook s) with
     | Some c => emit (Send c {| body := host_stopped; from := peerId;
                                 to := None |}) released
     | None => released
     end).
Proof.
  unfold stopSharing. unfold bind at 1. rewrite stopTracks_spec.
  unfold bind at 1. unfold modify at 1.
  unfold bind at 1. rewrite closeAll_spec.
  unfold sendSignal, bind, get. simpl.
  rewrite !hook_fold_emit. simpl. rewrite !hook_fold_emit.
  destruct (channelRef (hook s)); reflexivity.
Qed.

Lemma stopSharing_emitted peerId B st :
  emitted (stopSharing peerId B) st
  = map TrackStop (tracksOf (localStreamRef (hook st)))
    ++ map Close (JsMap.values (peerConnections (hook st)))
    ++ match channelRef (hook st) with
       | Some c => [Send c {| body := host_stopped; from := peerId; to := None |}]
       | None => []
       end.
Proof.
  apply emitted_exactly. unfold exec. rewrite stopSharing_spec. simpl.
  destruct (channelRef (hook st)); simpl;
    rewrite !log_fold_emit; simpl; rewrite !log_fold_emit;
    now rewrite <- ?app_assoc, ?app_nil_r.
Qed.

Lemma stopSharing_refs peerId B st :
  hook (exec (stopSharing peerId B) st)
  = {| peerConnections := JsMap.empty; channelRef := channelRef (hook st);
       localStreamRef := None |}.
Proof.
  unfold exec. rewrite stopSharing_spec. simpl.
  destruct (channelRef (hook st)) eqn:Ec; simpl;
    rewrite !hook_fold_emit; simpl; rewrite !hook_fold_emit;
    unfold set_peerConnections; simpl; now rewrite Ec.
Qed.

(** C5.  [stop()] always completes and, whichever releases the browser
    reports as failed, attempts them all: from every state, it calls [stop]
    on each track of the held stream, then [close] on each registered peer
    connection, then sends [host-stopped] on the channel, in this order and
    with nothing left out.  (The send is [channelRef.current?.send]: with no
    channel there is nothing to send on.) *)
Theorem C5_stop_attempts_every_release peerId B st :
  fst (stopSharing peerId B st) = Normal tt /\
  emitted (stopSharing peerId B) st
  = map TrackStop (tracksOf (localStreamRef (hook st)))
    ++ map Close (JsMap.values (peerConnections (hook st)))
    ++ match channelRef (hook st) with
       | Some c => [Send c {| body := host_stopped; from := peerId; to := None |}]
       | None => []
       end.
Proof.
  split.
  - now rewrite stopSharing_spec.
  - apply stopSharing_emitted.
Qed.

(** A host with a capture stream and one viewer, in a browser where every
    release fails: both tracks are stopped, the connection is closed, and
    [host-stopped] is sent. *)
Lemma C5_stop_attempts_every_release_witness :
  let host := run "ROOM" "h" true obliging
                [Mounted; ClickStartShare;
                 Broadcast {| body := viewer_ready; from := "v"; to := None |}]
                initial in
  fst (stopSharing "h" hostile host) = Normal tt /\
  emitted (stopSharing "h" hostile) host
  = [ TrackStop {| track_id := 0; kind := video |};
      TrackStop {| track_id := 1; kind := audio |};
      Close 2;
      Send 1 {| body := host_stopped; from := "h"; to := None |} ].
Proof.
  cbv zeta.
  exact (@C5_stop_attempts_every_release "h" hostile
           (run "ROOM" "h" true obliging
              [Mounted; ClickStartShare;
               Broadcast {| body := viewer_ready; from := "v"; to := None |}]
              initial)).
Defined.

(** C9.  Two calls of [stop()] in a row: both complete, the registry is
    empty after the first and after the second, and the second finds
    nothing left to release: all it does is send [host-stopped] again. *)
Theorem C9_stop_twice peerId B st :
  let s1 := exec (stopSharing peerId B) st in
  let s2 := exec (stopSharing peerId B) s1 in
  completes (stopSharing peerId B) st = true /\
  peerConnections (hook s1) = JsMap.empty /\
  completes (stopSharing peerId B) s1 = true /\
  peerConnections (hook s2) = JsMap.empty /\
  emitted (stopSharing peerId B) s1
  = match channelRef (hook st) with
    | Some c => [Send c {| body := host_stopped; from := peerId; to := None |}]
    | None => []
    end.
Proof.
  cbv zeta. unfold completes. rewrite !stopSharing_spec. simpl.
  rewrite stopSharing_emitted, !stopSharing_refs. simpl. auto.
Qed.

(** ** C1: one session per peer *)

Lemma handle_keeps_registryFunctional roomId peerId isHost B e :
  respects (keeps registryFunctional) (handle roomId peerId isHost B e).
Proof.
  unfold_handlers.
  repeat respects_step;
    unfold keeps, registryFunctional; simpl; intro H;
    auto using JsMapFacts.functional_set, JsMapFacts.functional_empty.
Qed.

Lemma run_keeps_registryFunctional roomId peerId isHost B events s :
  registryFunctional s ->
  registryFunctional (run roomId peerId isHost B events s).
Proof.
  revert s. induction events as [|e events IH]; intros s H; simpl; [exact H|].
  apply IH. exact (@handle_keeps_registryFunctional roomId peerId isHost B e s H).
Qed.

#[export] Instance settled_preorder : PreOrder settled.
Proof.
  split.
  - intro s. repeat split; reflexivity.
  - intros a b c (R1 & F1 & L1 & G1) (R2 & F2 & L2 & G2).
    repeat split; try congruence. now transitivity b.
Qed.

Ltac settled_base :=
  unfold settled; simpl; repeat split; auto;
  first [ apply grows_upd_hook | apply grows_upd_room | apply grows_bump
        | apply grows_emit; exact I ].

Lemma allocations_app P l l' :
  allocations P (l ++ l') = allocations P l + allocations P l'.
Proof. unfold allocations. now rewrite filter_app, length_app. Qed.

Lemma allocations_none P l : Forall noSessionEffect l -> allocations P l = 0.
Proof.
  unfold allocations. induction 1 as [|e l He _ IH]; simpl; auto.
  destruct e; simpl in *; auto; contradiction.
Qed.

Lemma no_close l : Forall noSessionEffect l -> forall pc, ~ In (Close pc) l.
Proof.
  intros F pc Hin. rewrite Forall_forall in F. exact (F _ Hin).
Qed.

(** What follows a [createPeerConnection] whose continuation leaves the
    registry alone. *)
Lemma createPeerConnection_then A remote (k : nat -> M A) s :
  (forall pc, respects settled (k pc)) ->
  let s' := snd (bind (createPeerConnection remote) k s) in
  peerConnections (hook s') = JsMap.set remote (fresh s) (peerConnections (hook s))
  /\ exists l, log s' = log s ++ NewPeerConnection (fresh s) remote :: l
               /\ Forall noSessionEffect l.
Proof.
  intros Hk s'. subst s'.
  unfold bind at 1, createPeerConnection, bind, get, modify, ret. simpl.
  match goal with |- context [k (fresh s) ?s1] =>
    destruct (Hk (fresh s) s1) as (R & _ & _ & l & E & F) end.
  simpl in *. split; [exact R|].
  exists l. split; [|exact F]. rewrite E. now rewrite <- app_assoc.
Qed.

Lemma onViewerReady_settled peerId viewerId :
  respects settled (onViewerReady peerId viewerId).
Proof.
  unfold onViewerReady, sendControlSignal, sendSignal.
  repeat respects_step; settled_base.
Qed.

Lemma onViewerReady_total peerId viewerId : total (onViewerReady peerId viewerId).
Proof.
  unfold onViewerReady, sendControlSignal, sendSignal. repeat total_step.
Qed.

Lemma allocations_fresh P pc l :
  Forall noSessionEffect l -> allocations P (NewPeerConnection pc P :: l) = 1.
Proof.
  intro F. unfold allocations. simpl. rewrite String.eqb_refl. simpl.
  fold (allocations P l). now rewrite (allocations_none _ F).
Qed.

Lemma viewer_ready_allocates peerId B m st stream :
  ignored peerId m = false ->
  body m = viewer_ready ->
  localStreamRef (hook st) = Some stream ->
  let st' := exec (handleSignal peerId true B m) st in
  peerConnections (hook st')
  = JsMap.set (from m) (fresh st) (peerConnections (hook st))
  /\ allocations (from m) (emitted (handleSignal peerId true B m) st) = 1
  /\ forall pc, ~ In (Close pc) (emitted (handleSignal peerId true B m) st).
Proof.
  intros Hi Hb Hs st'. subst st'.
  apply ignored_false in Hi. destruct Hi as [H1 H2].
  unfold emitted, exec.
  remember (handleSignal peerId true B m st) as X eqn:HX.
  unfold handleSignal in HX. rewrite H1, H2, Hb in HX. unfold bind at 1 in HX.
  destruct (onViewerReady_total peerId (from m) st) as [[] Hc].
  destruct (onViewerReady_settled peerId (from m) st) as (R1 & F1 & L1 & l1 & E1 & G1).
  destruct (onViewerReady peerId (from m) st) as [[[]|e] st1]; [|discriminate].
  simpl in R1, F1, L1, E1.
  unfold sendOfferToViewer in HX. unfold bind at 1, get at 1 in HX.
  cbv beta iota zeta in HX. rewrite L1, Hs in HX.
  match type of HX with _ = bind (createPeerConnection (from m)) ?k st1 =>
    destruct (@createPeerConnection_then _ (from m) k st1) as (R2 & l2 & E2 & G2)
  end.
  { intro pc. unfold await_ok, await_value, sendSignal.
    repeat respects_step; settled_base. }
  rewrite <- HX in R2, E2.
  rewrite R2, F1, R1, E2, E1, <- app_assoc, skipn_length_app.
  split; [reflexivity|]. split.
  - now rewrite allocations_app, (allocations_none _ G1), allocations_fresh.
  - intros pc Hin. apply in_app_or in Hin. destruct Hin as [Hin|[Hin|Hin]].
    + exact (no_close G1 _ Hin).
    + discriminate.
    + exact (no_close G2 _ Hin).
Qed.

Lemma offer_allocates peerId B m st sdp :
  ignored peerId m = false ->
  body m = offer sdp ->
  let st' := exec (handleSignal peerId false B m) st in
  peerConnections (hook st')
  = JsMap.set (from m) (fresh st) (peerConnections (hook st))
  /\ allocations (from m) (emitted (handleSignal peerId false B m) st) = 1
  /\ forall pc, ~ In (Close pc) (emitted (handleSignal peerId false B m) st).
Proof.
  intros Hi Hb st'. subst st'.
  apply ignored_false in Hi. destruct Hi as [H1 H2].
  unfold emitted, exec.
  remember (handleSignal peerId false B m st) as X eqn:HX.
  unfold handleSignal in HX. rewrite H1, H2, Hb in HX.
  match type of HX with _ = bind (createPeerConnection (from m)) ?k st =>
    destruct (@createPeerConnection_then _ (from m) k st) as (R2 & l2 & E2 & G2)
  end.
  { intro pc. unfold await_ok, await_value, sendSignal.
    repeat respects_step; settled_base. }
  rewrite <- HX in R2, E2.
  rewrite R2, E2, skipn_length_app.
  split; [reflexivity|]. split.
  - now apply allocations_fresh.
  - intros pc [Hin|Hin]; [discriminate | exact (no_close G2 _ Hin)].
Qed.

(** C1 (as stated, refuted).  A host that already holds session [2] for
    viewer ["v"] receives a second [viewer-ready] from ["v"]: a second peer
    connection is allocated for ["v"].  A viewer that already holds session
    [2] for host ["h"] receives a second [offer]: likewise. *)
Lemma C1_duplicate_signal_allocates_again :
  let ready := {| body := viewer_ready; from := "v"; to := None |} in
  let host := run "ROOM" "h" true obliging
                [Mounted; ClickStartShare; Broadcast ready] initial in
  let offer_ := {| body := offer "o"; from := "h"; to := Some "v" |} in
  let viewer := run "ROOM" "v" false obliging
                  [Mounted; Broadcast offer_] initial in
  (JsMap.get "v" (peerConnections (hook host)) = Some 2
   /\ allocations "v" (emitted (handleSignal "h" true obliging ready) host) = 1
   /\ allocations "v" (log (exec (handleSignal "h" true obliging ready) host)) = 2)
  /\
  (JsMap.get "h" (peerConnections (hook viewer)) = Some 2
   /\ allocations "h" (emitted (handleSignal "v" false obliging offer_) viewer) = 1
   /\ allocations "h" (log (exec (handleSignal "v" false obliging offer_) viewer)) = 2).
Proof. cbv zeta. vm_compute. repeat split; reflexivity. Qed.

(** C1 (amended).  In every execution, for every peer identity [P], the
    registry holds at most one session for [P].  A session-creating signal
    (a [viewer-ready] at a host that holds a capture stream, an [offer] at a
    viewer) allocates one new transport session every time it is handled,
    also when [P] has a session already; the new session takes [P]'s place
    in the registry, which then holds exactly one session for [P]. *)
Theorem C1_one_registered_session_per_peer roomId peerId isHost B :
  (forall events P,
     JsMap.entries P
       (peerConnections (hook (run roomId peerId isHost B events initial))) <= 1)
  /\
  (forall m st,
     ignored peerId m = false ->
     (isHost = true /\ body m = viewer_ready /\ localStreamRef (hook st) <> None)
     \/ (isHost = false /\ exists sdp, body m = offer sdp) ->
     registryFunctional st ->
     let st' := exec (handleSignal peerId isHost B m) st in
     allocations (from m) (emitted (handleSignal peerId isHost B m) st) = 1
     /\ JsMap.get (from m) (peerConnections (hook st')) = Some (fresh st)
     /\ JsMap.entries (from m) (peerConnections (hook st')) = 1).
Proof.
  split.
  - intros events P.
    apply (@run_keeps_registryFunctional roomId peerId isHost B events initial).
    exact (@JsMapFacts.functional_empty nat).
  - intros m st Hi Hcase Hfun st'.
    assert (K : peerConnections (hook st')
                = JsMap.set (from m) (fresh st) (peerConnections (hook st))
                /\ allocations (from m) (emitted (handleSignal peerId isHost B m) st) = 1
                /\ forall pc, ~ In (Close pc)
                                 (emitted (handleSignal peerId isHost B m) st)).
    { destruct Hcase as [(-> & Hb & Hs) | (-> & sdp & Hb)].
      - destruct (localStreamRef (hook st)) as [stream|] eqn:Es; [|congruence].
        exact (@viewer_ready_allocates peerId B m st stream Hi Hb Es).
      - exact (@offer_allocates peerId B m st sdp Hi Hb). }
    destruct K as (R & A & _). repeat split; auto.
    + rewrite R. apply JsMapFacts.get_set_same.
    + rewrite R. eapply JsMapFacts.entries_some.
      * now apply JsMapFacts.functional_set.
      * apply JsMapFacts.get_set_same.
Qed.

Lemma C1_one_registered_session_per_peer_witness :
  let ready := {| body := viewer_ready; from := "v"; to := None |} in
  let host := run "ROOM" "h" true obliging
                [Mounted; ClickStartShare; Broadcast ready] initial in
  let host' := exec (handleSignal "h" true obliging ready) host in
  JsMap.entries "v" (peerConnections (hook host)) <= 1
  /\ allocations "v" (emitted (handleSignal "h" true obliging ready) host) = 1
  /\ JsMap.get "v" (peerConnections (hook host')) = Some 3
  /\ JsMap.entries "v" (peerConnections (hook host')) = 1.
Proof.
  cbv zeta.
  destruct (@C1_one_registered_session_per_peer "ROOM" "h" true obliging)
    as [Inv New].
  split.
  - exact (Inv [Mounted; ClickStartShare;
                Broadcast {| body := viewer_ready; from := "v"; to := None |}] "v").
  - destruct (New {| body := viewer_ready; from := "v"; to := None |}
                  (run "ROOM" "h" true obliging
                     [Mounted; ClickStartShare;
                      Broadcast {| body := viewer_ready; from := "v"; to := None |}]
                     initial)) as (A & G & E).
    + reflexivity.
    + left. repeat split; discriminate.
    + apply run_keeps_registryFunctional.
      exact (@JsMapFacts.functional_empty nat).
    + repeat split; assumption.
Defined.

(** ** C6: who offers, who answers *)

Ltac respects_step_eqn :=
  lazymatch goal with
  | |- respects _ (match ?x with _ => _ end) => destruct x eqn:?
  | |- _ => respects_step
  end.

Lemma handle_obeys_negotiationRule roomId peerId isHost B e :
  respects (grows (obeys (negotiationRule peerId isHost e)))
           (handle roomId peerId isHost B e).
Proof.
  unfold_handlers.
  repeat respects_step_eqn; grows_base;
    try exact I;
    (split; intro Hx; try discriminate Hx);
    (split; [reflexivity|]);
    repeat eexists; try eassumption;
    unfold ignored;
    repeat match goal with
           | H : _ = false |- _ => rewrite H
           end;
    reflexivity.
Qed.

(** C6.  Take any execution of any participant (a start state [s0], the
    events [pre] handled so far), the next event [e], and any signal [x]
    emitted while [e] is handled.  If [x] is an [answer], the
    participant is a Viewer, the event is the delivery of an [offer] that
    passed the two guards (not its own, not addressed to another peer), and
    [x] is addressed to that offer's sender.  If [x] is an [offer], the
    participant is a Host, the event is the delivery of a [viewer-ready]
    that passed the guards, and [x] is addressed to that viewer.  Hence a
    Viewer never emits an [offer] and a Host never emits an [answer]. *)
Theorem C6_offer_answer_roles roomId peerId isHost B s0 pre e c x :
  In (Send c x) (emitted (handle roomId peerId isHost B e)
                         (run roomId peerId isHost B pre s0)) ->
  (is_answer x = true ->
   isHost = false
   /\ exists m sdp, e = Broadcast m /\ body m = offer sdp
                    /\ ignored peerId m = false /\ to x = Some (from m))
  /\ (is_offer x = true ->
      isHost = true
      /\ exists m, e = Broadcast m /\ body m = viewer_ready
                   /\ ignored peerId m = false /\ to x = Some (from m))
  /\ (isHost = false -> is_offer x = false)
  /\ (isHost = true -> is_answer x = false).
Proof.
  intro Hin.
  pose proof (@grows_emitted _ _ _ (run roomId peerId isHost B pre s0)
                (@handle_obeys_negotiationRule roomId peerId isHost B e)) as F.
  rewrite Forall_forall in F. specialize (F _ Hin). simpl in F.
  destruct F as [Ha Ho]. repeat split; try tauto.
  - intros Hv. destruct (is_offer x); [|reflexivity].
    destruct Ho as [Hh _]; congruence.
  - intros Hh. destruct (is_answer x); [|reflexivity].
    destruct Ha as [Hv _]; congruence.
Qed.

Lemma C6_offer_answer_roles_witness :
  let delivered := {| body := offer "o"; from := "h"; to := Some "v" |} in
  let x := {| body := answer "answer-sdp"; from := "v"; to := Some "h" |} in
  (is_answer x = true ->
   false = false
   /\ exists m sdp, Broadcast delivered = Broadcast m /\ body m = offer sdp
                    /\ ignored "v" m = false /\ to x = Some (from m))
  /\ (is_offer x = true ->
      false = true
      /\ exists m, Broadcast delivered = Broadcast m /\ body m = viewer_ready
                   /\ ignored "v" m = false /\ to x = Some (from m))
  /\ (false = false -> is_offer x = false)
  /\ (false = true -> is_answer x = false).
Proof.
  cbv zeta.
  apply (@C6_offer_answer_roles "ROOM" "v" false obliging initial [Mounted]
           (Broadcast {| body := offer "o"; from := "h"; to := Some "v" |}) 1
           {| body := answer "answer-sdp"; from := "v"; to := Some "h" |}).
  vm_compute. do 4 right. left. reflexivity.
Defined.

(** ** C7: announcing readiness *)

Lemma handle_keeps_subscribed roomId peerId isHost B e :
  respects (keeps subscribed) (handle roomId peerId isHost B e).
Proof.
  unfold_handlers.
  repeat respects_step; unfold keeps, subscribed; simpl; intro H;
    solve [ exact H | discriminate ].
Qed.

Lemma run_keeps_subscribed roomId peerId isHost B events s :
  subscribed s -> subscribed (run roomId peerId isHost B events s).
Proof.
  revert s. induction events as [|e events IH]; intros s H; simpl; [exact H|].
  apply IH. exact (@handle_keeps_subscribed roomId peerId isHost B e s H).
Qed.

Lemma mounted_subscribed roomId peerId isHost B events s :
  subscribed (run roomId peerId isHost B (Mounted :: events) s).
Proof. simpl. apply run_keeps_subscribed. discriminate. Qed.

Lemma silentAbout_sends test l :
  Forall (silentAbout test) l -> Forall (fun x => test x = false) (sends l).
Proof.
  induction 1 as [|e l He _ IH]; simpl; [constructor|].
  destruct e; simpl; auto.
Qed.

Lemma host_silent_about_viewer_ready roomId peerId B e :
  respects (grows (silentAbout is_viewer_ready)) (handle roomId peerId true B e).
Proof.
  unfold_handlers.
  repeat respects_step; grows_base; reflexivity.
Qed.

(** C7.  A Viewer whose channel effect has run (the channel is subscribed
    to; anything may have happened since) is told [SUBSCRIBED]: it emits
    exactly one signal, the [viewer-ready] broadcast.  Any other status
    emits nothing.  A Host, whatever its state and whatever happens to it,
    never emits [viewer-ready]. *)
Theorem C7_viewer_ready_on_subscription roomId peerId B :
  (forall events s0,
     let st := run roomId peerId false B (Mounted :: events) s0 in
     sends (emitted (handle roomId peerId false B (Status SUBSCRIBED)) st)
     = [ {| body := viewer_ready; from := peerId; to := None |} ])
  /\ (forall isHost status st,
        status <> SUBSCRIBED ->
        emitted (handle roomId peerId isHost B (Status status)) st = [])
  /\ (forall e st,
        Forall (fun x => is_viewer_ready x = false)
               (sends (emitted (handle roomId peerId true B e) st))).
Proof.
  split; [|split].
  - intros events s0 st.
    pose proof (@mounted_subscribed roomId peerId false B events s0) as Hs.
    fold st in Hs. unfold subscribed in Hs.
    destruct (channelRef (hook st)) as [c|] eqn:Ec; [|congruence].
    rewrite (@emitted_exactly _ _ _
               [Send c {| body := viewer_ready; from := peerId; to := None |}]).
    + reflexivity.
    + unfold exec, handle, onStatus, sendSignal, bind, get. simpl.
      rewrite Ec. reflexivity.
  - intros isHost status st Hne. apply emitted_nothing.
    destruct status; [congruence | reflexivity ..].
  - intros e st. apply silentAbout_sends.
    apply (@grows_emitted _ _ _ st (@host_silent_about_viewer_ready roomId peerId B e)).
Qed.

Lemma C7_viewer_ready_on_subscription_witness :
  sends (emitted (handle "ROOM" "v" false obliging (Status SUBSCRIBED))
                 (run "ROOM" "v" false obliging [Mounted] initial))
  = [ {| body := viewer_ready; from := "v"; to := None |} ]
  /\ emitted (handle "ROOM" "v" false obliging (Status CLOSED))
             (run "ROOM" "v" false obliging [Mounted] initial) = []
  /\ Forall (fun x => is_viewer_ready x = false)
            (sends (emitted (handle "ROOM" "h" true obliging (Status SUBSCRIBED))
                            (run "ROOM" "h" true obliging [Mounted] initial))).
Proof.
  destruct (@C7_viewer_ready_on_subscription "ROOM" "v" obliging) as (S1 & S2 & _).
  destruct (@C7_viewer_ready_on_subscription "ROOM" "h" obliging) as (_ & _ & S3).
  split; [|split].
  - exact (S1 [] initial).
  - apply S2. discriminate.
  - apply S3.
Defined.

(** *** The other announcement

    Besides the one on [SUBSCRIBED], a Viewer sends [viewer-ready] in reply
    to every [host-started] it handles, and on no other occasion. *)

Lemma viewerReadyCount_app l l' :
  viewerReadyCount (l ++ l') = viewerReadyCount l + viewerReadyCount l'.
Proof. unfold viewerReadyCount. now rewrite sends_app, filter_app, length_app. Qed.

Lemma viewerReadyCount_silent l :
  Forall (silentAbout is_viewer_ready) l -> viewerReadyCount l = 0.
Proof.
  unfold viewerReadyCount. intro F. apply silentAbout_sends in F.
  induction F as [|x xs Hx _ IH]; simpl; [reflexivity|]. now rewrite Hx.
Qed.

Lemma viewer_silent_unless_announcing roomId peerId B e :
  announces peerId e = false ->
  respects (grows (silentAbout is_viewer_ready)) (handle roomId peerId false B e).
Proof.
  intro Hann.
  unfold_handlers.
  repeat respects_step_eqn; grows_base; try reflexivity;
    subst e; simpl in Hann; try discriminate Hann.
  match goal with
  | H1 : String.eqb (from _) _ = false,
    H2 : option_truthy _ && _ = false,
    H3 : body _ = host_started |- _ =>
      unfold ignored, is_host_started in Hann;
      rewrite H1, H2, H3 in Hann; discriminate Hann
  end.
Qed.

Lemma grows_log P A (m : M A) s :
  respects (grows P) m -> log (exec m s) = log s ++ emitted m s.
Proof.
  intro H. destruct (H s) as [l [E F]].
  rewrite (@emitted_exactly _ m s l E). exact E.
Qed.

Lemma viewer_announcements_step roomId peerId B e st :
  subscribed st ->
  viewerReadyCount (emitted (handle roomId peerId false B e) st)
  = if announces peerId e then 1 else 0.
Proof.
  intro Hs. unfold subscribed in Hs.
  destruct (channelRef (hook st)) as [c|] eqn:Ec; [clear Hs | congruence].
  destruct (announces peerId e) eqn:Ha.
  - rewrite (@emitted_exactly _ _ _
               [Send c {| body := viewer_ready; from := peerId; to := None |}]);
      [reflexivity|].
    destruct e; try discriminate Ha; simpl in Ha.
    + destruct status; try discriminate Ha.
      unfold exec, handle, onStatus, sendSignal, bind, get. simpl.
      now rewrite Ec.
    + apply andb_prop in Ha. destruct Ha as [Hi Hb].
      apply negb_true_iff in Hi. apply ignored_false in Hi.
      destruct Hi as [H1 H2]. unfold is_host_started in Hb.
      unfold exec, handle, handleSignal. rewrite H1, H2.
      destruct (body payload); try discriminate Hb.
      unfold sendSignal, bind, get. simpl. now rewrite Ec.
  - apply viewerReadyCount_silent.
    apply (@grows_emitted _ _ _ st
             (@viewer_silent_unless_announcing roomId peerId B e Ha)).
Qed.

Lemma viewer_announcements roomId peerId B events st :
  subscribed st ->
  viewerReadyCount (log (run roomId peerId false B events st))
  = viewerReadyCount (log st)
    + List.length (filter (announces peerId) events).
Proof.
  revert st. induction events as [|e events IH]; intros st Hs; simpl; [lia|].
  rewrite IH.
  - rewrite (@grows_log _ _ _ st
               (@handle_obeys_negotiationRule roomId peerId false B e)).
    rewrite viewerReadyCount_app,
      (@viewer_announcements_step roomId peerId B e st Hs).
    destruct (announces peerId e); simpl; lia.
  - exact (@handle_keeps_subscribed roomId peerId false B e st Hs).
Qed.

(** ** File mode holds no capture stream

    [handleFileUpload] stops a running share before it uploads, and nothing
    in it acquires a stream: once it is through, [localStreamRef] is null,
    provided a held stream was being shared when the file was chosen. *)

Lemma exec_bind A C (m : M A) (k : A -> M C) s a s1 :
  m s = (Normal a, s1) -> exec (bind m k) s = exec (k a) s1.
Proof. intro E. unfold exec, bind. now rewrite E. Qed.

Lemma handleStopShare_noStream peerId B st :
  noStream (exec (handleStopShare peerId B) st).
Proof.
  unfold handleStopShare.
  rewrite (@exec_bind _ _ _ _ st tt _ (stopSharing_spec peerId B st)).
  match goal with |- noStream (exec ?k ?s1) =>
    assert (K : respects (keeps noStream) k)
  end.
  { unfold clearSyncInterval.
    repeat respects_step; unfold keeps, noStream; simpl; auto. }
  apply K. unfold noStream. simpl.
  destruct (channelRef (hook st)); simpl; now rewrite !hook_fold_emit.
Qed.

Lemma exec_bind_cases (P : App -> Prop) A C (m : M A) (k : A -> M C) s :
  (forall a s1, m s = (Normal a, s1) -> P (exec (k a) s1)) ->
  (forall e s1, m s = (Thrown e, s1) -> P s1) ->
  P (exec (bind m k) s).
Proof.
  intros Hn Ht. unfold exec, bind.
  destruct (m s) as [[a|e] s1]; [apply (Hn a s1) | apply (Ht e s1)]; reflexivity.
Qed.

Lemma handleFileUpload_noStream roomId peerId B now name st :
  (localStreamRef (hook st) <> None -> isSharing (room st) = true) ->
  noStream (exec (handleFileUpload roomId peerId B now (Some name)) st).
Proof.
  intro H. unfold handleFileUpload.
  rewrite (@exec_bind _ _ (get (fun s => isSharing (room s))) _ st
             (isSharing (room st)) st eq_refl).
  assert (N : noStream (exec (when (isSharing (room st))
                                   (handleStopShare peerId B)) st)).
  { destruct (isSharing (room st)) eqn:Es; simpl.
    - apply handleStopShare_noStream.
    - unfold exec, ret, noStream. simpl.
      destruct (localStreamRef (hook st)); [|reflexivity].
      assert (false = true) by (apply H; discriminate). discriminate. }
  apply exec_bind_cases.
  - intros a s1 E. unfold exec in N. rewrite E in N. simpl in N.
    match goal with |- noStream (exec ?k s1) =>
      assert (K : respects (keeps noStream) k)
    end.
    { unfold clearSyncInterval, play_, sendControlSignal, sendSignal.
      repeat respects_step; unfold keeps, noStream; simpl; auto. }
    apply K, N.
  - intros e s1 E. unfold exec in N. now rewrite E in N.
Qed.

(** * Beyond the claims *)

(** ** The codec preference order *)

Lemma insertCodec_perm c l : Permutation (c :: l) (insertCodec c l).
Proof.
  induction l as [|d l IH]; simpl; [reflexivity|].
  destruct (Nat.leb (getScore d) (getScore c)); [reflexivity|].
  rewrite perm_swap. now apply perm_skip.
Qed.

Lemma insertCodec_class k c l :
  filter (fun x => Nat.eqb (getScore x) k) (insertCodec c l)
  = filter (fun x => Nat.eqb (getScore x) k) (c :: l).
Proof.
  induction l as [|d l IH]; simpl; [reflexivity|].
  destruct (Nat.leb (getScore d) (getScore c)) eqn:E; [reflexivity|].
  apply Nat.leb_gt in E. simpl. rewrite IH. simpl.
  destruct (Nat.eqb_spec (getScore c) k), (Nat.eqb_spec (getScore d) k);
    try reflexivity; lia.
Qed.

Lemma insertCodec_sorted c l :
  StronglySorted (fun a b => getScore b <= getScore a) l ->
  StronglySorted (fun a b => getScore b <= getScore a) (insertCodec c l).
Proof.
  induction 1 as [|d l Hs IH Hd]; simpl.
  - repeat constructor.
  - destruct (Nat.leb (getScore d) (getScore c)) eqn:E.
    + apply Nat.leb_le in E. constructor; [constructor; assumption|].
      constructor; [exact E|].
      eapply Forall_impl; [|exact Hd]. simpl. intros; lia.
    + apply Nat.leb_gt in E. constructor; [exact IH|].
      eapply Permutation_Forall; [apply insertCodec_perm|].
      constructor; [lia | exact Hd].
Qed.

(** X1.  Sorting the codec list for [setCodecPreferences] only reorders it:
    the result is a permutation of the browser's list, and codecs of equal
    rank keep the order the browser gave them. *)
Theorem X1_sortedCodecs_reorders codecs :
  Permutation codecs (sortedCodecs codecs)
  /\ forall k,
       filter (fun c => Nat.eqb (getScore c) k) (sortedCodecs codecs)
       = filter (fun c => Nat.eqb (getScore c) k) codecs.
Proof.
  unfold sortedCodecs. split.
  - induction codecs as [|c l IH]; simpl; [constructor|].
    rewrite <- insertCodec_perm. now constructor.
  - intro k. induction codecs as [|c l IH]; simpl; [reflexivity|].
    rewrite insertCodec_class. simpl. now rewrite IH.
Qed.

(** X2.  In the sorted list no codec comes after one of lower rank: every
    VP9 entry precedes every VP8 entry, those precede every H264 entry, and
    the rest comes last. *)
Theorem X2_sortedCodecs_descending codecs :
  StronglySorted (fun a b => getScore b <= getScore a) (sortedCodecs codecs).
Proof.
  unfold sortedCodecs. induction codecs as [|c l IH]; simpl.
  - constructor.
  - now apply insertCodec_sorted.
Qed.

(** ** Starting a screen share *)

(** Unfold a handler to the state it computes, and read off what it
    appended to the log. *)
Ltac compute_handler :=
  unfold emitted, exec, completes;
  unfold_handlers;
  unfold perform, call, bind, get, modify, ret, throw, when, try_;
  simpl.

Ltac read_log :=
  repeat rewrite <- app_assoc; simpl;
  rewrite ?skipn_length_app, ?skipn_all; simpl.

(** X3.  The user or the browser refuses the capture: [handleStartShare]
    completes, the page is no more sharing than before, the refs of the
    hook are untouched, and nothing is sent, [host-started] in particular.
    (The file URL has been reset by then: that happens before the capture
    is asked for.) *)
Theorem X3_capture_denied peerId B st :
  getDisplayMedia B (log st) = None ->
  let st' := exec (handleStartShare peerId B) st in
  completes (handleStartShare peerId B) st = true
  /\ hook st' = hook st
  /\ isSharing (room st') = isSharing (room st)
  /\ hasStream (room st') = hasStream (room st)
  /\ videoFileUrl (room st') = None
  /\ emitted (handleStartShare peerId B) st = [GetDisplayMedia].
Proof.
  intro H. compute_handler. rewrite H. simpl.
  destruct (localVideoRef (room st)); simpl; read_log; repeat split;
    destruct (hook st); reflexivity.
Qed.

Lemma X3_capture_denied_witness :
  let st := run "ROOM" "h" true hostile [Mounted] initial in
  let st' := exec (handleStartShare "h" hostile) st in
  completes (handleStartShare "h" hostile) st = true
  /\ hook st' = hook st
  /\ isSharing (room st') = isSharing (room st)
  /\ hasStream (room st') = hasStream (room st)
  /\ videoFileUrl (room st') = None
  /\ emitted (handleStartShare "h" hostile) st = [GetDisplayMedia].
Proof.
  cbv zeta.
  apply (@X3_capture_denied "h" hostile (run "ROOM" "h" true hostile [Mounted] initial)).
  reflexivity.
Defined.

(** X4.  The capture is granted: [handleStartShare] completes, the hook
    holds the captured stream, the page is sharing, the preview element
    shows the stream, the registry and the channel are as before, and the
    one signal sent is the [host-started] broadcast. *)
Theorem X4_capture_granted peerId B st stream c :
  getDisplayMedia B (log st) = Some stream ->
  channelRef (hook st) = Some c ->
  let st' := exec (handleStartShare peerId B) st in
  completes (handleStartShare peerId B) st = true
  /\ localStreamRef (hook st') = Some stream
  /\ peerConnections (hook st') = peerConnections (hook st)
  /\ channelRef (hook st') = Some c
  /\ isSharing (room st') = true
  /\ hasStream (room st') = true
  /\ videoFileUrl (room st') = None
  /\ option_map srcObject (localVideoRef (room st'))
     = option_map (fun _ => Some stream) (localVideoRef (room st))
  /\ sends (emitted (handleStartShare peerId B) st)
     = [ {| body := host_started; from := peerId; to := None |} ].
Proof.
  intros H Hc. compute_handler. rewrite H. simpl. rewrite Hc. simpl.
  destruct (localVideoRef (room st)) eqn:El; repeat (simpl; rewrite ?El);
    read_log; repeat split; auto;
    destruct (playAllowed B _); reflexivity.
Qed.

Lemma X4_capture_granted_witness :
  let st := run "ROOM" "h" true obliging [Mounted] initial in
  let st' := exec (handleStartShare "h" obliging) st in
  completes (handleStartShare "h" obliging) st = true
  /\ localStreamRef (hook st') = Some captured
  /\ peerConnections (hook st') = peerConnections (hook st)
  /\ channelRef (hook st') = Some 1
  /\ isSharing (room st') = true
  /\ hasStream (room st') = true
  /\ videoFileUrl (room st') = None
  /\ option_map srcObject (localVideoRef (room st'))
     = option_map (fun _ => Some captured) (localVideoRef (room st))
  /\ sends (emitted (handleStartShare "h" obliging) st)
     = [ {| body := host_started; from := "h"; to := None |} ].
Proof.
  cbv zeta.
  apply (@X4_capture_granted "h" obliging
           (run "ROOM" "h" true obliging [Mounted] initial) captured 1);
    reflexivity.
Defined.

(** ** Signals by role *)

Lemma room_fold_emit (l : list Effect) s :
  room (fold_left (fun s e => emit e s) l s) = room s.
Proof. revert s. induction l as [|e l IH]; intro s; simpl; [|rewrite IH]; auto. Qed.

(** X5.  A signal of a kind the local role has no use for (an [offer],
    [host-started], [host-stopped] or [control] at a Host; an [answer] or
    [viewer-ready] at a Viewer) is dropped: no state change, nothing
    emitted, no error. *)
Theorem X5_misdirected_signal_is_dropped peerId isHost B m st :
  misdirected isHost (body m) = true ->
  handleSignal peerId isHost B m st = (Normal tt, st).
Proof.
  intro H. unfold handleSignal.
  destruct (String.eqb (from m) peerId); [reflexivity|].
  destruct (option_truthy (to m) && _); [reflexivity|].
  destruct (body m), isHost; try discriminate H; reflexivity.
Qed.

Lemma X5_misdirected_signal_is_dropped_witness :
  let host := run "ROOM" "h" true obliging [Mounted; ClickStartShare] initial in
  handleSignal "h" true obliging
    {| body := offer "o"; from := "x"; to := Some "h" |} host
  = (Normal tt, host).
Proof.
  cbv zeta.
  apply (@X5_misdirected_signal_is_dropped "h" true obliging
           {| body := offer "o"; from := "x"; to := Some "h" |}).
  reflexivity.
Defined.

(** X6.  A Host handles an [answer] meant for it.  With no session
    registered for the sender the answer is dropped and the state is
    unchanged.  With a session, the one call made is [setRemoteDescription]
    on that session with the answer's description; the handler completes
    exactly when the browser accepts it (a rejection is not caught here),
    and in either case the refs, the Room state and the handle counter stay
    as they were. *)
Theorem X6_answer_at_host peerId B m sdp st :
  ignored peerId m = false ->
  body m = answer sdp ->
  let r := handleSignal peerId true B m st in
  match JsMap.get (from m) (peerConnections (hook st)) with
  | None => r = (Normal tt, st)
  | Some pc =>
      emitted (handleSignal peerId true B m) st = [SetRemoteDescription pc sdp]
      /\ completes (handleSignal peerId true B m) st
         = setRemoteDescription B (log st) pc sdp
      /\ hook (snd r) = hook st
      /\ room (snd r) = room st
      /\ fresh (snd r) = fresh st
  end.
Proof.
  intros Hi Hb r. subst r.
  apply ignored_false in Hi. destruct Hi as [H1 H2].
  unfold emitted, exec, completes, handleSignal. rewrite H1, H2, Hb.
  unfold bind, get. simpl.
  destruct (JsMap.get (from m) (peerConnections (hook st))) as [pc|];
    [|reflexivity].
  unfold await_ok, bind, call. simpl.
  destruct (setRemoteDescription B (log st) pc sdp); simpl;
    rewrite skipn_length_app; repeat split; reflexivity.
Qed.

Lemma X6_answer_at_host_witness :
  let host := run "ROOM" "h" true obliging
                [Mounted; ClickStartShare;
                 Broadcast {| body := viewer_ready; from := "v"; to := None |}]
                initial in
  let m := {| body := answer "a"; from := "v"; to := Some "h" |} in
  let r := handleSignal "h" true hostile m host in
  emitted (handleSignal "h" true hostile m) host = [SetRemoteDescription 2 "a"]
  /\ completes (handleSignal "h" true hostile m) host = false
  /\ hook (snd r) = hook host
  /\ room (snd r) = room host
  /\ fresh (snd r) = fresh host.
Proof.
  cbv zeta.
  apply (@X6_answer_at_host "h" hostile
           {| body := answer "a"; from := "v"; to := Some "h" |} "a"
           (run "ROOM" "h" true obliging
              [Mounted; ClickStartShare;
               Broadcast {| body := viewer_ready; from := "v"; to := None |}]
              initial));
    reflexivity.
Defined.

(** X7.  A Viewer handles a [host-stopped] meant for it: it closes every
    registered peer connection, in the registry's order, and empties the
    registry; the page stops showing a stream and the element lets go of
    its [srcObject]; nothing is sent and the handler completes. *)
Theorem X7_host_stopped_at_viewer peerId B m st :
  ignored peerId m = false ->
  body m = host_stopped ->
  let st' := exec (handleSignal peerId false B m) st in
  completes (handleSignal peerId false B m) st = true
  /\ emitted (handleSignal peerId false B m) st
     = map Close (JsMap.values (peerConnections (hook st)))
  /\ peerConnections (hook st') = JsMap.empty
  /\ hasStream (room st') = false
  /\ option_map srcObject (videoRef (room st'))
     = option_map (fun _ => None) (videoRef (room st)).
Proof.
  intros Hi Hb st'. subst st'.
  apply ignored_false in Hi. destruct Hi as [H1 H2].
  assert (E : exists st1,
             handleSignal peerId false B m st = closeAll B st1
             /\ hook st1 = hook st /\ log st1 = log st
             /\ hasStream (room st1) = false
             /\ option_map srcObject (videoRef (room st1))
                = option_map (fun _ => None) (videoRef (room st))).
  { eexists. split.
    - unfold handleSignal. rewrite H1, H2, Hb.
      unfold onHostStopped, bind, modify. reflexivity.
    - simpl. destruct (videoRef (room st)) eqn:Ev; simpl; rewrite ?Ev;
        repeat split; reflexivity. }
  destruct E as (st1 & E & Eh & El & Es & Ev).
  unfold emitted, exec, completes. rewrite E, closeAll_spec. simpl.
  rewrite log_fold_emit, room_fold_emit, Eh, El, skipn_length_app.
  repeat split; assumption.
Qed.

Lemma X7_host_stopped_at_viewer_witness :
  let viewer := run "ROOM" "v" false obliging
                  [Mounted; Broadcast {| body := offer "o"; from := "h";
                                         to := Some "v" |}] initial in
  let m := {| body := host_stopped; from := "h"; to := None |} in
  let st' := exec (handleSignal "v" false obliging m) viewer in
  completes (handleSignal "v" false obliging m) viewer = true
  /\ emitted (handleSignal "v" false obliging m) viewer = [Close 2]
  /\ peerConnections (hook st') = JsMap.empty
  /\ hasStream (room st') = false
  /\ option_map srcObject (videoRef (room st'))
     = option_map (fun _ => None) (videoRef (room viewer)).
Proof.
  cbv zeta.
  apply (@X7_host_stopped_at_viewer "v" obliging
           {| body := host_stopped; from := "h"; to := None |}
           (run "ROOM" "v" false obliging
              [Mounted; Broadcast {| body := offer "o"; from := "h";
                                     to := Some "v" |}] initial));
    reflexivity.
Defined.

(** ** Leaving and stopping *)

(** X8.  The channel effect is cleaned up (the page is left, or the effect
    re-runs): the channel is unsubscribed, every track of the held stream
    is stopped, every registered connection is closed and the registry is
    emptied.  Nothing is sent: a host that leaves this way does not
    announce [host-stopped].  The stream and channel refs are left
    pointing where they did. *)
Theorem X8_cleanup_releases_silently B c st :
  let st' := exec (cleanup B c) st in
  completes (cleanup B c) st = true
  /\ emitted (cleanup B c) st
     = Unsubscribe c
       :: map TrackStop (tracksOf (localStreamRef (hook st)))
       ++ map Close (JsMap.values (peerConnections (hook st)))
  /\ sends (emitted (cleanup B c) st) = []
  /\ peerConnections (hook st') = JsMap.empty
  /\ localStreamRef (hook st') = localStreamRef (hook st)
  /\ channelRef (hook st') = channelRef (hook st)
  /\ room st' = room st.
Proof.
  assert (E : cleanup B c st
              = (Normal tt,
                 upd_hook (set_peerConnections JsMap.empty)
                   (fold_left (fun s e => emit e s)
                      (map Close (JsMap.values (peerConnections (hook st))))
                      (fold_left (fun s e => emit e s)
                         (map TrackStop (tracksOf (localStreamRef (hook st))))
                         (emit (Unsubscribe c) st))))).
  { unfold cleanup. unfold bind at 1. unfold modify at 1.
    unfold bind at 1. rewrite stopTracks_spec, closeAll_spec.
    simpl. now rewrite !hook_fold_emit. }
  assert (N : forall l1 l2, sends (Unsubscribe c :: map TrackStop l1 ++ map Close l2) = []).
  { intros l1 l2. simpl. rewrite sends_app.
    assert (N1 : sends (map TrackStop l1) = []) by (induction l1; simpl; auto).
    assert (N2 : sends (map Close l2) = []) by (induction l2; simpl; auto).
    now rewrite N1, N2. }
  assert (L : emitted (cleanup B c) st
              = Unsubscribe c
                :: map TrackStop (tracksOf (localStreamRef (hook st)))
                ++ map Close (JsMap.values (peerConnections (hook st)))).
  { apply emitted_exactly. unfold exec. rewrite E. simpl.
    rewrite !log_fold_emit. simpl. now rewrite <- !app_assoc. }
  cbv zeta. rewrite L, N. unfold completes, exec. rewrite E. simpl.
  rewrite !hook_fold_emit, !room_fold_emit. simpl.
  repeat split; reflexivity.
Qed.

Lemma stopSharing_room peerId B st :
  room (exec (stopSharing peerId B) st) = room st.
Proof.
  unfold exec. rewrite stopSharing_spec. simpl.
  destruct (channelRef (hook st)); simpl;
    rewrite !room_fold_emit; simpl; now rewrite !room_fold_emit.
Qed.

Lemma stopSharing_log peerId B st :
  log (exec (stopSharing peerId B) st)
  = log st ++ emitted (stopSharing peerId B) st.
Proof.
  rewrite stopSharing_emitted. unfold exec. rewrite stopSharing_spec. simpl.
  destruct (channelRef (hook st)); simpl;
    rewrite !log_fold_emit; simpl; rewrite !log_fold_emit;
    now rewrite <- ?app_assoc, ?app_nil_r.
Qed.

(** What [handleStopShare] does once [stopSharing] has left state [s1]. *)
Lemma handleStopShare_after peerId B st s1 :
  stopSharing peerId B st = (Normal tt, s1) ->
  let st' := exec (handleStopShare peerId B) st in
  fst (handleStopShare peerId B st) = Normal tt
  /\ hook st' = hook s1
  /\ log st' = log s1 ++ match syncIntervalRef (room s1) with
                         | Some (S n) => [ClearInterval (S n)]
                         | _ => []
                         end
  /\ isSharing (room st') = false
  /\ hasStream (room st') = false
  /\ videoFileUrl (room st') = None
  /\ syncIntervalRef (room st') = syncIntervalRef (room s1)
  /\ localVideoRef (room st')
     = option_map (fun lv => {| srcObject := None; src := ""; muted := true;
                                controls := false; currentTime := currentTime lv;
                                paused := paused lv; bound := bound lv |})
                  (localVideoRef (room s1)).
Proof.
  intro E. cbv zeta. unfold exec.
  remember (handleStopShare peerId B st) as X eqn:HX.
  unfold handleStopShare in HX. unfold bind at 1 in HX. rewrite E in HX.
  unfold clearSyncInterval, bind, get, modify, ret in HX. simpl in HX.
  subst X.
  destruct (syncIntervalRef (room s1)) as [[|n]|] eqn:Et; simpl; rewrite ?Et;
    destruct (localVideoRef (room s1)) eqn:El; simpl; rewrite ?El, ?Et;
    destruct (videoRef (room s1)) eqn:Ev; simpl; rewrite ?El, ?Et, ?Ev;
    rewrite ?app_nil_r; repeat split; auto.
Qed.

(** X9.  The host's Stop button ([handleStopShare], also run when the
    browser ends the capture): every track is stopped, every connection is
    closed, [host-stopped] is sent, the sync timer (if one was started) is
    cleared, in this order.  Afterwards the hook holds no stream and no
    session, the page is not sharing, shows no stream and has no file URL,
    and the preview element is reset (no source, muted, no controls). *)
Theorem X9_stop_share peerId B st :
  let st' := exec (handleStopShare peerId B) st in
  completes (handleStopShare peerId B) st = true
  /\ emitted (handleStopShare peerId B) st
     = map TrackStop (tracksOf (localStreamRef (hook st)))
       ++ map Close (JsMap.values (peerConnections (hook st)))
       ++ match channelRef (hook st) with
          | Some c => [Send c {| body := host_stopped; from := peerId; to := None |}]
          | None => []
          end
       ++ match syncIntervalRef (room st) with
          | Some (S n) => [ClearInterval (S n)]
          | _ => []
          end
  /\ hook st' = {| peerConnections := JsMap.empty;
                   channelRef := channelRef (hook st);
                   localStreamRef := None |}
  /\ isSharing (room st') = false
  /\ hasStream (room st') = false
  /\ videoFileUrl (room st') = None
  /\ localVideoRef (room st')
     = option_map (fun lv => {| srcObject := None; src := ""; muted := true;
                                controls := false; currentTime := currentTime lv;
                                paused := paused lv; bound := bound lv |})
                  (localVideoRef (room st)).
Proof.
  cbv zeta.
  destruct (@handleStopShare_after peerId B st (exec (stopSharing peerId B) st))
    as (Hc & Hh & Hl & H1 & H2 & H3 & _ & H5).
  { unfold exec. now rewrite stopSharing_spec. }
  rewrite stopSharing_room in Hl, H5.
  unfold completes. rewrite Hc, Hh, stopSharing_refs.
  repeat split; auto.
  apply emitted_exactly. rewrite Hl, stopSharing_log, stopSharing_emitted.
  now rewrite <- !app_assoc.
Qed.

(** ** Uploading a file *)

Lemma handleStopShare_result peerId B st :
  exists st1,
    handleStopShare peerId B st = (Normal tt, st1)
    /\ hook st1 = {| peerConnections := JsMap.empty;
                     channelRef := channelRef (hook st);
                     localStreamRef := None |}
    /\ log st1 = log st ++ emitted (handleStopShare peerId B) st.
Proof.
  destruct (@handleStopShare_after peerId B st (exec (stopSharing peerId B) st))
    as (Hc & Hh & _).
  { unfold exec. now rewrite stopSharing_spec. }
  rewrite stopSharing_refs in Hh.
  assert (G : respects (grows (fun _ => True)) (handleStopShare peerId B)).
  { unfold_handlers. repeat respects_step; grows_base; exact I. }
  pose proof (@grows_log _ _ _ st G) as Hl.
  unfold exec in Hh, Hl.
  destruct (handleStopShare peerId B st) as [[[]|e] s1] eqn:E; [|discriminate].
  exists s1. repeat split; assumption.
Qed.

Lemma when_handleStopShare_completes peerId B st :
  exists st1,
    when (isSharing (room st)) (handleStopShare peerId B) st = (Normal tt, st1)
    /\ st1 = exec (when (isSharing (room st)) (handleStopShare peerId B)) st.
Proof.
  unfold exec. destruct (isSharing (room st)); simpl.
  - destruct (@handleStopShare_after peerId B st (exec (stopSharing peerId B) st))
      as (Hc & _).
    { unfold exec. now rewrite stopSharing_spec. }
    destruct (handleStopShare peerId B st) as [[[]|e] s1]; [|discriminate].
    now exists s1.
  - now exists st.
Qed.

(** X11.  The upload fails: [handleFileUpload] completes, no control
    message is sent (viewers are not told of a file), the page ends up not
    sharing and not uploading, and after the optional teardown of a running
    share the one call made is the upload itself. *)
Theorem X11_upload_failed roomId peerId B now name st :
  (forall l, upload B l (roomId ++ "_" ++ now ++ "_" ++ name)%string = None) ->
  let h := handleFileUpload roomId peerId B now (Some name) in
  let st' := exec h st in
  completes h st = true
  /\ emitted h st
     = emitted (when (isSharing (room st)) (handleStopShare peerId B)) st
       ++ [Upload (roomId ++ "_" ++ now ++ "_" ++ name)%string]
  /\ isSharing (room st') = false
  /\ isUploading (room st') = false
  /\ videoFileUrl (room st')
     = if isSharing (room st) then None else videoFileUrl (room st).
Proof.
  intros Hu h st'. subst h st'.
  destruct (when_handleStopShare_completes peerId B st) as (st1 & E & E1).
  assert (Hs : isSharing (room st1) = false
               /\ videoFileUrl (room st1)
                  = if isSharing (room st) then None else videoFileUrl (room st)).
  { rewrite E1. destruct (isSharing (room st)) eqn:Es; simpl.
    - destruct (@handleStopShare_after peerId B st (exec (stopSharing peerId B) st))
        as (_ & _ & _ & H1 & _ & H3 & _).
      { unfold exec. now rewrite stopSharing_spec. }
      now split.
    - unfold exec. simpl. now split. }
  destruct Hs as [Hs Hv].
  assert (Hl : exists l, log st1 = log st ++ l
                         /\ l = emitted (when (isSharing (room st))
                                              (handleStopShare peerId B)) st).
  { assert (G : respects (grows (fun _ => True))
                  (when (isSharing (room st)) (handleStopShare peerId B))).
    { unfold_handlers. repeat respects_step; grows_base; exact I. }
    exists (emitted (when (isSharing (room st)) (handleStopShare peerId B)) st).
    split; [|reflexivity]. rewrite E1. exact (@grows_log _ _ _ st G). }
  destruct Hl as (l & Hl & El). rewrite <- El.
  unfold completes, emitted, exec.
  remember (handleFileUpload roomId peerId B now (Some name) st) as X eqn:HX.
  unfold handleFileUpload in HX. unfold bind at 1, get at 1 in HX.
  cbv beta iota in HX. unfold bind at 1 in HX. rewrite E in HX.
  unfold bind, modify, call in HX. simpl in HX. rewrite Hu in HX.
  subst X. simpl. rewrite Hl, <- app_assoc, skipn_length_app.
  repeat split; assumption.
Qed.

Lemma X11_upload_failed_witness :
  let st := run "ROOM" "h" true obliging [Mounted; ClickStartShare] initial in
  let h := handleFileUpload "ROOM" "h" hostile "17" (Some "a.mp4") in
  let st' := exec h st in
  completes h st = true
  /\ emitted h st
     = emitted (when (isSharing (room st)) (handleStopShare "h" hostile)) st
       ++ [Upload "ROOM_17_a.mp4"]
  /\ isSharing (room st') = false
  /\ isUploading (room st') = false
  /\ videoFileUrl (room st')
     = if isSharing (room st) then None else videoFileUrl (room st).
Proof.
  cbv zeta.
  apply (@X11_upload_failed "ROOM" "h" hostile "17" "a.mp4"
           (run "ROOM" "h" true obliging [Mounted; ClickStartShare] initial)).
  reflexivity.
Defined.

(** X10.  A file is chosen while a share is running and the upload
    succeeds.  The running share is torn down first, exactly as by the Stop
    button ([host-stopped] included); only then comes the upload, and after
    it the [file-url] broadcast carrying the public URL; what follows sends
    nothing more.  Afterwards the hook holds no stream and no session, and
    the page is sharing the file: [isSharing], [hasStream], the file URL
    set, the upload flag down. *)
Theorem X10_mode_switch roomId peerId B now name st c publicUrl :
  isSharing (room st) = true ->
  channelRef (hook st) = Some c ->
  (forall l, upload B l (roomId ++ "_" ++ now ++ "_" ++ name)%string
             = Some publicUrl) ->
  let h := handleFileUpload roomId peerId B now (Some name) in
  let st' := exec h st in
  (exists rest,
     emitted h st
     = emitted (handleStopShare peerId B) st
       ++ Upload (roomId ++ "_" ++ now ++ "_" ++ name)%string
       :: Send c {| body := control file_url
                              (Some {| time := None; url := Some publicUrl |});
                    from := peerId; to := None |}
       :: rest
     /\ sends rest = [])
  /\ peerConnections (hook st') = JsMap.empty
  /\ localStreamRef (hook st') = None
  /\ isSharing (room st') = true
  /\ hasStream (room st') = true
  /\ videoFileUrl (room st') = Some publicUrl
  /\ isUploading (room st') = false.
Proof.
  intros Hsh Hc Hu h st'. subst h st'.
  destruct (@handleStopShare_result peerId B st) as (st1 & E & Hh & Hl).
  rewrite Hc in Hh.
  unfold emitted at 1, exec.
  remember (handleFileUpload roomId peerId B now (Some name) st) as X eqn:HX.
  unfold handleFileUpload in HX. unfold bind at 1, get at 1 in HX.
  cbv beta iota in HX. rewrite Hsh in HX. unfold when in HX.
  unfold bind at 1 in HX. rewrite E in HX.
  unfold clearSyncInterval, play_, sendControlSignal, sendSignal,
    bind, modify, call, get, ret in HX.
  simpl in HX. rewrite Hu in HX. simpl in HX. rewrite Hh in HX. simpl in HX.
  destruct (localVideoRef (room st1)) as [lv|] eqn:El;
    [destruct (syncIntervalRef (room st1)) as [[|n]|] eqn:Et|];
    simpl in HX; rewrite ?Et in HX; simpl in HX; subst X; simpl;
    rewrite ?Hh; simpl; repeat split; auto;
    eexists; (split;
      [ rewrite Hl; repeat rewrite <- app_assoc; rewrite skipn_length_app;
        simpl; reflexivity
      | reflexivity ]).
Qed.

Lemma X10_mode_switch_witness :
  let st := run "ROOM" "h" true obliging
              [Mounted; ClickStartShare;
               Broadcast {| body := viewer_ready; from := "v"; to := None |}]
              initial in
  let h := handleFileUpload "ROOM" "h" obliging "17" (Some "a.mp4") in
  let st' := exec h st in
  (exists rest,
     emitted h st
     = emitted (handleStopShare "h" obliging) st
       ++ Upload "ROOM_17_a.mp4"
       :: Send 1 {| body := control file_url
                              (Some {| time := None;
                                       url := Some "https://cdn/ROOM_17_a.mp4" |});
                    from := "h"; to := None |}
       :: rest
     /\ sends rest = [])
  /\ peerConnections (hook st') = JsMap.empty
  /\ localStreamRef (hook st') = None
  /\ isSharing (room st') = true
  /\ hasStream (room st') = true
  /\ videoFileUrl (room st') = Some "https://cdn/ROOM_17_a.mp4"
  /\ isUploading (room st') = false.
Proof.
  cbv zeta.
  apply (@X10_mode_switch "ROOM" "h" obliging "17" "a.mp4"
           (run "ROOM" "h" true obliging
              [Mounted; ClickStartShare;
               Broadcast {| body := viewer_ready; from := "v"; to := None |}]
              initial)
           1 "https://cdn/ROOM_17_a.mp4");
    reflexivity.
Defined.

(** ** Control messages at the receiver *)

Lemma handleControlReceived_frame X (obs : Refs -> nat -> X) isHost B action payload :
  respects (fixes (fun s => obs (hook s) (fresh s)))
           (handleControlReceived isHost B action payload).
Proof.
  unfold_handlers. repeat respects_step; reflexivity.
Qed.

Lemma handleControlReceived_quiet isHost B action payload :
  respects (grows (fun e => e = Play))
           (handleControlReceived isHost B action payload).
Proof.
  unfold_handlers. repeat respects_step; grows_base; reflexivity.
Qed.

(** X12.  A control message reaches the page only: whatever the action and
    payload, and whether it completes or throws, [handleControlReceived]
    leaves the refs of the hook (registry, stream, channel) untouched,
    allocates nothing, sends nothing, and calls the browser at most to
    [play()].  On a Host, or with no video element mounted, it changes
    nothing at all. *)
Theorem X12_control_touches_only_the_page isHost B action payload st :
  let r := handleControlReceived isHost B action payload st in
  hook (snd r) = hook st
  /\ fresh (snd r) = fresh st
  /\ Forall (fun e => e = Play)
            (emitted (handleControlReceived isHost B action payload) st)
  /\ (isHost = true \/ videoRef (room st) = None -> r = (Normal tt, st)).
Proof.
  cbv zeta.
  pose proof (@handleControlReceived_frame _ (fun h f => (h, f))
                isHost B action payload st) as F.
  unfold fixes in F. injection F as Fh Ff.
  repeat split; auto.
  - apply (@grows_emitted _ _ _ st
             (@handleControlReceived_quiet isHost B action payload)).
  - intros [-> | Hv]; [reflexivity|].
    unfold handleControlReceived. destruct isHost; [reflexivity|].
    unfold bind, get. simpl. now rewrite Hv.
Qed.

(** X13.  A Viewer with a mounted element handles [file-url{url}]: the page
    switches to file mode, records the URL and shows a stream; the element
    drops whatever capture stream it had and points at the URL, unmuted and
    without controls.  Nothing is sent, no session is touched. *)
Theorem X13_file_url_at_viewer peerId B m u vid st :
  ignored peerId m = false ->
  body m = control file_url (Some {| time := None; url := Some u |}) ->
  videoRef (room st) = Some vid ->
  let r := handleSignal peerId false B m st in
  fst r = Normal tt
  /\ hook (snd r) = hook st
  /\ log (snd r) = log st
  /\ streamMode (room (snd r)) = file
  /\ videoFileUrl (room (snd r)) = Some u
  /\ hasStream (room (snd r)) = true
  /\ videoRef (room (snd r))
     = Some {| srcObject := None; src := u; muted := false; controls := false;
               currentTime := currentTime vid; paused := paused vid;
               bound := bound vid |}.
Proof.
  intros Hi Hb Hv r. subst r.
  apply ignored_false in Hi. destruct Hi as [H1 H2].
  unfold handleSignal. rewrite H1, H2, Hb.
  unfold handleControlReceived, bind, get, modify. simpl. rewrite Hv. simpl.
  repeat split; reflexivity.
Qed.

Lemma X13_file_url_at_viewer_witness :
  let m := {| body := control file_url
                        (Some {| time := None; url := Some "https://cdn/a.mp4" |});
              from := "h"; to := None |} in
  let r := handleSignal "v" false obliging m initial in
  fst r = Normal tt
  /\ hook (snd r) = hook initial
  /\ log (snd r) = log initial
  /\ streamMode (room (snd r)) = file
  /\ videoFileUrl (room (snd r)) = Some "https://cdn/a.mp4"
  /\ hasStream (room (snd r)) = true
  /\ videoRef (room (snd r))
     = Some {| srcObject := None; src := "https://cdn/a.mp4"; muted := false;
               controls := false; currentTime := currentTime blankVideo;
               paused := paused blankVideo; bound := bound blankVideo |}.
Proof.
  cbv zeta.
  apply (@X13_file_url_at_viewer "v" obliging
           {| body := control file_url
                        (Some {| time := None; url := Some "https://cdn/a.mp4" |});
              from := "h"; to := None |}
           "https://cdn/a.mp4" blankVideo initial);
    reflexivity.
Defined.

(** X14.  A Viewer with a mounted element handles [seek].  With a finite
    [time] the element jumps there, paused or not, and nothing else changes.
    With no payload, no [time], or a [time] that is not finite, the assignment
    is a TypeError: the handler throws and the state is what it was. *)
Theorem X14_seek_at_viewer peerId B m payload vid st :
  ignored peerId m = false ->
  body m = control seek payload ->
  videoRef (room st) = Some vid ->
  handleSignal peerId false B m st
  = match payload with
    | Some {| time := Some t |} =>
        if is_finite t
        then (Normal tt, upd_room (set_videoRef (Some (with_currentTime vid t))) st)
        else (Thrown "TypeError", st)
    | _ => (Thrown "TypeError", st)
    end.
Proof.
  intros Hi Hb Hv.
  apply ignored_false in Hi. destruct Hi as [H1 H2].
  unfold handleSignal. rewrite H1, H2, Hb.
  unfold handleControlReceived, bind, get. simpl. rewrite Hv.
  destruct payload as [[[t|] u]|]; simpl; try reflexivity.
  unfold assign_currentTime. destruct (is_finite t); reflexivity.
Qed.

Lemma X14_seek_at_viewer_witness :
  let seekTo t := {| body := control seek (Some {| time := t; url := None |});
                     from := "h"; to := Some "v" |} in
  handleSignal "v" false obliging (seekTo (Some 42%float)) initial
  = (Normal tt,
     upd_room (set_videoRef (Some (with_currentTime blankVideo 42%float))) initial)
  /\ handleSignal "v" false obliging (seekTo None) initial
     = (Thrown "TypeError", initial).
Proof.
  cbv zeta. split.
  - exact (@X14_seek_at_viewer "v" obliging
             {| body := control seek (Some {| time := Some 42%float; url := None |});
                from := "h"; to := Some "v" |}
             (Some {| time := Some 42%float; url := None |}) blankVideo initial
             eq_refl eq_refl eq_refl).
  - exact (@X14_seek_at_viewer "v" obliging
             {| body := control seek (Some {| time := None; url := None |});
                from := "h"; to := Some "v" |}
             (Some {| time := None; url := None |}) blankVideo initial
             eq_refl eq_refl eq_refl).
Defined.

(** ** Incoming media *)

(** X15.  A track arrives on a peer connection.  A Host ignores it, and so
    does anyone when the event carries no stream.  A Viewer hands the first
    stream to the page: screen mode, a stream is showing, the element plays
    that stream with its [src] emptied; [play()] is the only call made, and
    its rejection is swallowed. *)
Theorem X15_track_received isHost B streams st :
  let r := ontrack isHost B streams st in
  fst r = Normal tt
  /\ hook (snd r) = hook st
  /\ match streams, isHost with
     | stream :: _, false =>
         streamMode (room (snd r)) = screen
         /\ hasStream (room (snd r)) = true
         /\ videoRef (room (snd r))
            = option_map
                (fun vid => {| srcObject := Some stream; src := "";
                               muted := muted vid; controls := controls vid;
                               currentTime := currentTime vid;
                               paused := if playAllowed B (log st) then false
                                         else paused vid;
                               bound := bound vid |})
                (videoRef (room st))
         /\ emitted (ontrack isHost B streams) st
            = match videoRef (room st) with Some _ => [Play] | None => [] end
     | _, _ => snd r = st
     end.
Proof.
  cbv zeta. unfold emitted, exec, ontrack.
  destruct streams as [|stream rest]; [repeat split; reflexivity|].
  destruct isHost; [repeat split; reflexivity|].
  unfold onStreamReceived, play_, bind, get, modify, call, ret. simpl.
  destruct (videoRef (room st)) eqn:Ev; simpl; rewrite ?Ev; simpl;
    rewrite ?skipn_length_app, ?skipn_all;
    repeat split; try reflexivity.
  destruct (playAllowed B (log st)); reflexivity.
Qed.

(** ** What a participant puts on the channel *)

Lemma handle_signs_its_signals roomId peerId isHost B e :
  respects (grows (obeys (fun x => from x = peerId)))
           (handle roomId peerId isHost B e).
Proof.
  unfold_handlers. repeat respects_step; grows_base; reflexivity.
Qed.

(** X16.  Whatever happens to a participant, in whatever state, every
    signal it sends carries its own peer identity in [from]. *)
Theorem X16_signals_carry_own_identity roomId peerId isHost B e st c x :
  In (Send c x) (emitted (handle roomId peerId isHost B e) st) ->
  from x = peerId.
Proof.
  intro Hin.
  pose proof (@grows_emitted _ _ _ st
                (@handle_signs_its_signals roomId peerId isHost B e)) as F.
  rewrite Forall_forall in F. exact (F _ Hin).
Qed.

Lemma X16_signals_carry_own_identity_witness :
  from {| body := viewer_ready; from := "v"; to := None |} = "v".
Proof.
  apply (@X16_signals_carry_own_identity "ROOM" "v" false obliging
           (Status SUBSCRIBED) (run "ROOM" "v" false obliging [Mounted] initial) 1).
  vm_compute. left. reflexivity.
Defined.

Lemma viewer_keeps_previewUnbound roomId peerId B e :
  respects (keeps previewUnbound) (handle roomId peerId false B e).
Proof.
  unfold_handlers.
  repeat (cbv beta iota; respects_step);
    unfold keeps, previewUnbound; simpl;
    try (intro H; exact H);
    try (destruct (videoRef (room s)); simpl; intro H; exact H);
    destruct (localVideoRef (room s)) eqn:E; simpl; rewrite ?E; auto.
Qed.

Lemma viewer_sends_viewerSignals roomId peerId B e :
  match e with PreviewPlay | PreviewPause | PreviewSeeked _ => False | _ => True end ->
  respects (grows (obeys (fun x => viewerSignal x = true)))
           (handle roomId peerId false B e).
Proof.
  intro He. unfold_handlers.
  destruct e; try contradiction;
    repeat (cbv beta iota; respects_step); grows_base; reflexivity.
Qed.

Lemma viewer_step_viewerSignals roomId peerId B e st :
  previewUnbound st ->
  Forall (obeys (fun x => viewerSignal x = true))
         (emitted (handle roomId peerId false B e) st).
Proof.
  intro Hu.
  destruct e;
    try (apply grows_emitted, viewer_sends_viewerSignals; exact I);
    unfold emitted, exec, handle, updPreview, whenBound, bind, get, modify, when;
    simpl; unfold previewUnbound in Hu;
    destruct (localVideoRef (room st)) as [lv|] eqn:El; simpl;
    rewrite ?El; simpl; rewrite ?Hu; simpl; rewrite skipn_all; constructor.
Qed.

Lemma viewer_run_keeps_previewUnbound roomId peerId B events s :
  previewUnbound s -> previewUnbound (run roomId peerId false B events s).
Proof.
  revert s. induction events as [|e events IH]; intros s Hs; simpl; [exact Hs|].
  apply IH. exact (@viewer_keeps_previewUnbound roomId peerId B e s Hs).
Qed.

(** X17.  In every execution that starts from a freshly loaded page, a
    Viewer sends only [viewer-ready], [answer] and [ice-candidate] signals:
    never [host-started], [host-stopped], an [offer] or a playback
    [control]. *)
Theorem X17_viewer_sends_only_viewer_signals roomId peerId B events e c x :
  In (Send c x)
     (emitted (handle roomId peerId false B e)
              (run roomId peerId false B events initial)) ->
  viewerSignal x = true.
Proof.
  intro Hin.
  assert (Hu : previewUnbound (run roomId peerId false B events initial))
    by (apply viewer_run_keeps_previewUnbound; reflexivity).
  pose proof (@viewer_step_viewerSignals roomId peerId B e _ Hu) as F.
  rewrite Forall_forall in F. exact (F _ Hin).
Qed.

Lemma X17_viewer_sends_only_viewer_signals_witness :
  viewerSignal {| body := answer "answer-sdp"; from := "v"; to := Some "h" |} = true.
Proof.
  apply (@X17_viewer_sends_only_viewer_signals "ROOM" "v" obliging [Mounted]
           (Broadcast {| body := offer "o"; from := "h"; to := Some "v" |}) 1).
  vm_compute. do 4 right. left. reflexivity.
Defined.

(** ** A late joiner catches up *)




(** ** A candidate on its way *)

(** X19.  ICE relay, end to end.  Peer [a], subscribed, gathers a candidate
    on the connection it created for peer [b]; the signals it sends are
    delivered to [b], which holds session [pc] for [a], and to any other
    participant [w] (Host or Viewer, [a] itself included).  [b] makes exactly
    one call, [addIceCandidate] on [pc] with that candidate, and changes
    nothing else, whether or not the browser accepts the candidate; [w] is
    left exactly as it was. *)
Theorem X19_ice_relay roomId a b w Bb Bw isHostB isHostW sa sb sw ch cand pc :
  a <> b -> w <> b -> b <> "" ->
  channelRef (hook sa) = Some ch ->
  JsMap.get a (peerConnections (hook sb)) = Some pc ->
  let out := sends (emitted (onicecandidate a b (Some cand)) sa) in
  let sb' := run roomId b isHostB Bb (map Broadcast out) sb in
  log sb' = log sb ++ [AddIceCandidate pc cand]
  /\ hook sb' = hook sb
  /\ room sb' = room sb
  /\ fresh sb' = fresh sb
  /\ run roomId w isHostW Bw (map Broadcast out) sw = sw.
Proof.
  intros Hab Hwb Hb Hch Hpc out sb'. subst sb' out.
  assert (E : sends (emitted (onicecandidate a b (Some cand)) sa)
              = [ {| body := ice_candidate (Some cand); from := a; to := Some b |} ]).
  { rewrite (@emitted_exactly _ _ _
               [Send ch {| body := ice_candidate (Some cand); from := a;
                           to := Some b |}]); [reflexivity|].
    unfold exec, onicecandidate, sendSignal, bind, get. simpl.
    now rewrite Hch. }
  rewrite E. simpl. unfold exec, handleSignal. simpl.
  assert (Eab : String.eqb a b = false) by now apply String.eqb_neq.
  assert (Ebw : String.eqb b w = false).
  { apply String.eqb_neq. congruence. }
  assert (Eb : string_truthy b = true).
  { unfold string_truthy. now apply String.eqb_neq in Hb; rewrite Hb. }
  rewrite Eab, Eb, Ebw, String.eqb_refl. simpl.
  repeat split.
  - destruct isHostB; unfold bind, get; simpl; rewrite Hpc;
      unfold try_, await_ok, bind, call, ret, throw; simpl;
      destruct (addIceCandidate Bb (log sb) pc cand); reflexivity.
  - destruct isHostB; unfold bind, get; simpl; rewrite Hpc;
      unfold try_, await_ok, bind, call, ret, throw; simpl;
      destruct (addIceCandidate Bb (log sb) pc cand); reflexivity.
  - destruct isHostB; unfold bind, get; simpl; rewrite Hpc;
      unfold try_, await_ok, bind, call, ret, throw; simpl;
      destruct (addIceCandidate Bb (log sb) pc cand); reflexivity.
  - destruct isHostB; unfold bind, get; simpl; rewrite Hpc;
      unfold try_, await_ok, bind, call, ret, throw; simpl;
      destruct (addIceCandidate Bb (log sb) pc cand); reflexivity.
  - destruct (String.eqb a w); reflexivity.
Qed.

Lemma X19_ice_relay_witness :
  let host := run "ROOM" "h" true obliging
                [Mounted; ClickStartShare;
                 Broadcast {| body := viewer_ready; from := "v"; to := None |}]
                initial in
  let viewer := run "ROOM" "v" false hostile
                  [Mounted;
                   Broadcast {| body := offer "offer-sdp"; from := "h";
                                to := Some "v" |}] initial in
  let out := sends (emitted (onicecandidate "h" "v" (Some "cand")) host) in
  let viewer' := run "ROOM" "v" false hostile (map Broadcast out) viewer in
  log viewer' = log viewer ++ [AddIceCandidate 2 "cand"]
  /\ hook viewer' = hook viewer
  /\ room viewer' = room viewer
  /\ fresh viewer' = fresh viewer
  /\ run "ROOM" "w" false obliging (map Broadcast out) initial = initial.
Proof.
  cbv zeta.
  refine (@X19_ice_relay "ROOM" "h" "v" "w" hostile obliging false false
            (run "ROOM" "h" true obliging
               [Mounted; ClickStartShare;
                Broadcast {| body := viewer_ready; from := "v"; to := None |}]
               initial)
            (run "ROOM" "v" false hostile
               [Mounted;
                Broadcast {| body := offer "offer-sdp"; from := "h";
                             to := Some "v" |}] initial)
            initial 1 "cand" 2 _ _ _ eq_refl eq_refl);
    intro H; discriminate H.
Defined.

(** ** Negotiation, end to end *)

Lemma sends_silent l : Forall (silentAbout (fun _ => true)) l -> sends l = [].
Proof.
  induction 1 as [|e l He _ IH]; [reflexivity|].
  destruct e; simpl in *; try exact IH. discriminate.
Qed.

(** A step that always completes, leaves refs, page and handle counter
    alone and sends nothing: the rest of the handler runs, in a state that
    differs by a silent stretch of the log. *)
Lemma bind_silent A (m : M unit) (k : unit -> M A) s :
  total m ->
  respects (fixes (fun s => (hook s, room s, fresh s))) m ->
  respects (grows (silentAbout (fun _ => true))) m ->
  exists s1 l,
    bind m k s = k tt s1
    /\ hook s1 = hook s /\ room s1 = room s /\ fresh s1 = fresh s
    /\ log s1 = log s ++ l /\ sends l = [].
Proof.
  intros Ht Hf Hg. destruct (Ht s) as [[] Ha]. specialize (Hf s).
  destruct (Hg s) as [l [El Fl]].
  unfold bind. destruct (m s) as [[[]|e] s1]; simpl in *; [|discriminate].
  exists s1, l. unfold fixes in Hf. injection Hf as H1 H2 H3.
  repeat split; auto using sends_silent.
Qed.

Lemma createPeerConnection_result remote s :
  createPeerConnection remote s
  = (Normal (fresh s),
     upd_hook (fun h => set_peerConnections
                          (JsMap.set remote (fresh s) (peerConnections h)) h)
       (emit (NewPeerConnection (fresh s) remote) (bump s))).
Proof. reflexivity. Qed.

(** The offer a Host holding a stream makes when the browser negotiates. *)
Lemma sendOfferToViewer_accepted peerId B viewerId st stream ch :
  localStreamRef (hook st) = Some stream ->
  channelRef (hook st) = Some ch ->
  negotiates B ->
  exists mid o st',
    sendOfferToViewer peerId B viewerId st = (Normal tt, st')
    /\ sends mid = []
    /\ log st' = log st ++ NewPeerConnection (fresh st) viewerId :: mid
                  ++ [CreateOffer (fresh st);
                      SetLocalDescription (fresh st) o;
                      Send ch {| body := offer o; from := peerId;
                                 to := Some viewerId |}]
    /\ peerConnections (hook st')
       = JsMap.set viewerId (fresh st) (peerConnections (hook st))
    /\ room st' = room st.
Proof.
  intros Hs Hc (Ho & _ & Hl & _).
  remember (sendOfferToViewer peerId B viewerId st) as X eqn:HX.
  unfold sendOfferToViewer in HX. unfold bind at 1, get at 1 in HX.
  cbv beta iota in HX. rewrite Hs in HX.
  unfold bind at 1 in HX. rewrite createPeerConnection_result in HX.
  match type of HX with _ = bind ?m ?k ?s =>
    destruct (@bind_silent _ m k s) as (s1 & l1 & E1 & A1 & B1 & C1 & D1 & S1)
  end.
  { repeat total_step. }
  { unfold await_ok. repeat respects_step; unfold fixes; reflexivity. }
  { unfold await_ok. repeat respects_step; apply grows_emit; exact I. }
  rewrite E1 in HX.
  match type of HX with _ = bind ?m ?k ?s =>
    destruct (@bind_silent _ m k s) as (s2 & l2 & E2 & A2 & B2 & C2 & D2 & S2)
  end.
  { repeat total_step. }
  { unfold await_ok. repeat respects_step; unfold fixes; reflexivity. }
  { unfold await_ok. repeat respects_step; apply grows_emit; exact I. }
  rewrite E2 in HX.
  unfold await_value, await_ok, sendSignal, bind, call, get, modify, ret in HX.
  simpl in HX.
  destruct (createOffer B (log s2) (fresh st)) as [o|] eqn:Eo;
    [|exfalso; exact (Ho _ _ Eo)].
  rewrite Hl in HX. unfold throw in HX. simpl in HX.
  rewrite A2, A1 in HX. simpl in HX. rewrite Hc in HX.
  exists (l1 ++ l2), o. eexists. split; [exact HX|].
  simpl. rewrite A2, A1, B2, B1, D2, D1. simpl.
  repeat split.
  - rewrite sends_app, S1, S2. reflexivity.
  - now rewrite <- !app_assoc.
Qed.

(** The answer a Viewer makes to an offer when the browser negotiates. *)
Lemma offer_answered peerId B m sdp st ch :
  ignored peerId m = false ->
  body m = offer sdp ->
  channelRef (hook st) = Some ch ->
  negotiates B ->
  exists a st',
    handleSignal peerId false B m st = (Normal tt, st')
    /\ log st' = log st ++ [NewPeerConnection (fresh st) (from m);
                            SetRemoteDescription (fresh st) sdp;
                            CreateAnswer (fresh st);
                            SetLocalDescription (fresh st) a;
                            Send ch {| body := answer a; from := peerId;
                                       to := Some (from m) |}]
    /\ peerConnections (hook st')
       = JsMap.set (from m) (fresh st) (peerConnections (hook st))
    /\ room st' = room st.
Proof.
  intros Hi Hb Hc (_ & Ha & Hl & Hr).
  apply ignored_false in Hi. destruct Hi as [H1 H2].
  remember (handleSignal peerId false B m st) as X eqn:HX.
  unfold handleSignal in HX. rewrite H1, H2, Hb in HX.
  unfold bind at 1 in HX. rewrite createPeerConnection_result in HX.
  unfold await_value, await_ok, sendSignal, bind, call, get, modify, ret in HX.
  simpl in HX. rewrite Hr in HX. simpl in HX.
  match type of HX with context [createAnswer B ?l ?pc] =>
    destruct (createAnswer B l pc) as [a|] eqn:Ea; [|exfalso; exact (Ha _ _ Ea)]
  end.
  rewrite Hl in HX. simpl in HX. rewrite Hc in HX.
  exists a. eexists. split; [exact HX|].
  simpl. repeat split. now rewrite <- !app_assoc.
Qed.

(** X20.  Negotiation, end to end.  A Host holding a capture stream, in
    screen mode, handles a viewer's [viewer-ready]; the signals it sends are
    delivered to that viewer; the signals the viewer sends in turn are
    delivered back to the Host.  When both browsers accept every step, the
    Host sends one signal, an [offer] addressed to the viewer; the viewer
    sends one signal, an [answer] addressed to the Host; and the two
    sessions hold mirrored descriptions: the Host's session for the viewer
    has the offer as local and the answer as remote description, the
    viewer's session for the Host the offer as remote and the answer as
    local one. *)
Theorem X20_negotiation_completes roomId hostId viewerId Bh Bv ready hs vs
    stream ch cv :
  from ready = viewerId ->
  ignored hostId ready = false ->
  body ready = viewer_ready ->
  localStreamRef (hook hs) = Some stream ->
  channelRef (hook hs) = Some ch ->
  streamMode (room hs) = screen ->
  channelRef (hook vs) = Some cv ->
  negotiates Bh ->
  negotiates Bv ->
  let hs1 := exec (handleSignal hostId true Bh ready) hs in
  let out1 := sends (emitted (handleSignal hostId true Bh ready) hs) in
  let vs1 := run roomId viewerId false Bv (map Broadcast out1) vs in
  let out2 := sends (skipn (List.length (log vs)) (log vs1)) in
  let hs2 := run roomId hostId true Bh (map Broadcast out2) hs1 in
  exists o a mid,
    out1 = [ {| body := offer o; from := hostId; to := Some viewerId |} ]
    /\ out2 = [ {| body := answer a; from := viewerId; to := Some hostId |} ]
    /\ JsMap.get viewerId (peerConnections (hook hs2)) = Some (fresh hs)
    /\ JsMap.get hostId (peerConnections (hook vs1)) = Some (fresh vs)
    /\ sends mid = []
    /\ log hs2 = log hs ++ NewPeerConnection (fresh hs) viewerId :: mid
                  ++ [CreateOffer (fresh hs);
                      SetLocalDescription (fresh hs) o;
                      Send ch {| body := offer o; from := hostId;
                                 to := Some viewerId |};
                      SetRemoteDescription (fresh hs) a]
    /\ log vs1 = log vs ++ [NewPeerConnection (fresh vs) hostId;
                            SetRemoteDescription (fresh vs) o;
                            CreateAnswer (fresh vs);
                            SetLocalDescription (fresh vs) a;
                            Send cv {| body := answer a; from := viewerId;
                                       to := Some hostId |}].
Proof.
  intros Hf Hi Hb Hs Hc Hm Hcv Nh Nv hs1 out1 vs1 out2 hs2.
  assert (Hi' := Hi). apply ignored_false in Hi'. destruct Hi' as [H1 H2].
  assert (Evh : String.eqb viewerId hostId = false) by now rewrite <- Hf.
  assert (Ehv : String.eqb hostId viewerId = false)
    by now rewrite String.eqb_sym.
  (* the host's offer *)
  destruct (@sendOfferToViewer_accepted hostId Bh viewerId hs stream ch Hs Hc Nh)
    as (mid & o & hs1' & Eo & Smid & Lo & Po & Ro).
  assert (E1 : handleSignal hostId true Bh ready hs = (Normal tt, hs1')).
  { unfold handleSignal. rewrite H1, H2, Hb. unfold bind at 1.
    unfold onViewerReady, bind, get. simpl. rewrite Hm. simpl.
    rewrite Hf. exact Eo. }
  assert (Ehs1 : hs1 = hs1') by (unfold hs1, exec; now rewrite E1).
  assert (Eout1 : out1 = [ {| body := offer o; from := hostId;
                              to := Some viewerId |} ]).
  { unfold out1, emitted, exec. rewrite E1. simpl. rewrite Lo.
    rewrite skipn_length_app. simpl. rewrite sends_app, Smid. reflexivity. }
  (* the viewer's answer *)
  set (theOffer := {| body := offer o; from := hostId; to := Some viewerId |}) in *.
  assert (Io : ignored viewerId theOffer = false).
  { unfold ignored, theOffer. simpl.
    now rewrite Ehv, String.eqb_refl, andb_false_r. }
  destruct (@offer_answered viewerId Bv theOffer o vs cv Io eq_refl Hcv Nv)
    as (a & vs1' & Ea & La & Pa & Ra).
  assert (Evs1 : vs1 = vs1').
  { unfold vs1. rewrite Eout1. simpl. unfold exec. now rewrite Ea. }
  assert (Eout2 : out2 = [ {| body := answer a; from := viewerId;
                              to := Some hostId |} ]).
  { unfold out2. rewrite Evs1, La, skipn_length_app. reflexivity. }
  (* back at the host *)
  destruct Nh as (_ & _ & _ & Hr).
  assert (Ehs2 : hs2 = emit (SetRemoteDescription (fresh hs) a) hs1').
  { unfold hs2. rewrite Eout2, Ehs1. simpl. unfold exec, handleSignal. simpl.
    rewrite Evh, String.eqb_refl, andb_false_r.
    unfold bind, get. simpl. rewrite Po, JsMapFacts.get_set_same.
    unfold await_ok, bind, call. simpl. now rewrite Hr. }
  exists o, a, mid. repeat split.
  - exact Eout1.
  - exact Eout2.
  - rewrite Ehs2. simpl. rewrite Po. apply JsMapFacts.get_set_same.
  - rewrite Evs1, Pa. apply JsMapFacts.get_set_same.
  - exact Smid.
  - rewrite Ehs2. simpl. rewrite Lo. rewrite <- !app_assoc. simpl.
    now rewrite <- !app_assoc.
  - rewrite Evs1. exact La.
Qed.

Lemma X20_negotiation_completes_witness :
  let host := run "ROOM" "h" true obliging [Mounted; ClickStartShare] initial in
  let viewer := run "ROOM" "v" false obliging [Mounted] initial in
  let ready := {| body := viewer_ready; from := "v"; to := None |} in
  let hs1 := exec (handleSignal "h" true obliging ready) host in
  let out1 := sends (emitted (handleSignal "h" true obliging ready) host) in
  let vs1 := run "ROOM" "v" false obliging (map Broadcast out1) viewer in
  let out2 := sends (skipn (List.length (log viewer)) (log vs1)) in
  let hs2 := run "ROOM" "h" true obliging (map Broadcast out2) hs1 in
  exists o a mid,
    out1 = [ {| body := offer o; from := "h"; to := Some "v" |} ]
    /\ out2 = [ {| body := answer a; from := "v"; to := Some "h" |} ]
    /\ JsMap.get "v" (peerConnections (hook hs2)) = Some 2
    /\ JsMap.get "h" (peerConnections (hook vs1)) = Some 2
    /\ sends mid = []
    /\ log hs2 = log host ++ NewPeerConnection 2 "v" :: mid
                  ++ [CreateOffer 2; SetLocalDescription 2 o;
                      Send 1 {| body := offer o; from := "h"; to := Some "v" |};
                      SetRemoteDescription 2 a]
    /\ log vs1 = log viewer ++ [NewPeerConnection 2 "h";
                                SetRemoteDescription 2 o;
                                CreateAnswer 2;
                                SetLocalDescription 2 a;
                                Send 1 {| body := answer a; from := "v";
                                          to := Some "h" |}].
Proof.
  cbv zeta.
  refine (@X20_negotiation_completes "ROOM" "h" "v" obliging obliging
            {| body := viewer_ready; from := "v"; to := None |}
            (run "ROOM" "h" true obliging [Mounted; ClickStartShare] initial)
            (run "ROOM" "v" false obliging [Mounted] initial)
            captured 1 1
            eq_refl eq_refl eq_refl eq_refl eq_refl eq_refl eq_refl _ _);
    (repeat split; intros; try reflexivity; discriminate).
Defined.

(** ** Playback controls, end to end *)

(** X21.  The Host's playback controls are mirrored.  The Host, subscribed,
    plays a file in a preview element whose handlers are bound; the element
    reports a play, a pause, or a seek to a finite position.  The signals
    the Host sends are delivered to a Viewer whose element is mounted and
    allowed to play.  The Host sends exactly one signal, a broadcast, and
    the change [f] the event made to the Host's element (paused flag
    cleared, paused flag set, position moved) is the change the Viewer's
    element undergoes; nothing else on the Viewer's page, refs or log of
    sent signals changes. *)
Theorem X21_controls_are_mirrored roomId hostId viewerId Bh Bv e hs vs
    ch lv vid f :
  hostId <> viewerId ->
  channelRef (hook hs) = Some ch ->
  localVideoRef (room hs) = Some lv ->
  bound lv = true ->
  videoRef (room vs) = Some vid ->
  (forall l, playAllowed Bv l = true) ->
  (e = PreviewPlay /\ f = (fun x => with_paused x false))
  \/ (e = PreviewPause /\ f = (fun x => with_paused x true))
  \/ (exists t, e = PreviewSeeked t /\ is_finite t = true
                /\ f = (fun x => with_currentTime x t)) ->
  let hs' := exec (handle roomId hostId true Bh e) hs in
  let out := sends (emitted (handle roomId hostId true Bh e) hs) in
  let vs' := run roomId viewerId false Bv (map Broadcast out) vs in
  List.length out = 1
  /\ Forall (fun x => to x = None) out
  /\ localVideoRef (room hs') = Some (f lv)
  /\ room vs' = set_videoRef (Some (f vid)) (room vs)
  /\ hook vs' = hook vs
  /\ sends (log vs') = sends (log vs).
Proof.
  intros Hne Hc Hlv Hb Hvid Hplay He hs' out vs'.
  assert (Ehv : String.eqb hostId viewerId = false) by now apply String.eqb_neq.
  assert (Hout : exists a p,
            handle roomId hostId true Bh e hs
            = (Normal tt,
               emit (Send ch {| body := control a p; from := hostId; to := None |})
                 (upd_room (set_localVideoRef (Some (f lv))) hs))
            /\ exec (handleSignal viewerId false Bv
                       {| body := control a p; from := hostId; to := None |}) vs
               = match a with
                 | play => emit Play (upd_room (set_videoRef (Some (f vid))) vs)
                 | _ => upd_room (set_videoRef (Some (f vid))) vs
                 end
            /\ (a = play \/ a = pause \/ a = seek)).
  { destruct He as [[-> ->] | [[-> ->] | (t & -> & Ht & ->)]].
    - exists play, None. split; [|split].
      + unfold handle, updPreview, whenBound, onplay, sendControlSignal,
          sendSignal, bind, get, modify. simpl. rewrite Hlv. simpl.
        rewrite Hb. simpl. rewrite Hc. unfold emit, upd_room. simpl.
        now rewrite Hlv.
      + unfold exec, handleSignal. simpl. rewrite Ehv. simpl.
        unfold handleControlReceived, play_, bind, get, call, modify, ret.
        simpl. rewrite Hvid. simpl. rewrite Hplay. reflexivity.
      + auto.
    - exists pause, None. split; [|split].
      + unfold handle, updPreview, whenBound, onpause, sendControlSignal,
          sendSignal, bind, get, modify. simpl. rewrite Hlv. simpl.
        rewrite Hb. simpl. rewrite Hc. unfold emit, upd_room. simpl.
        now rewrite Hlv.
      + unfold exec, handleSignal. simpl. rewrite Ehv. simpl.
        unfold handleControlReceived, bind, get, modify.
        simpl. rewrite Hvid. reflexivity.
      + auto.
    - exists seek, (Some {| time := Some t; url := None |}).
      split; [|split].
      + unfold handle, updPreview, whenBound, onseeked, sendControlSignal,
          sendSignal, bind, get, modify. simpl. rewrite Hlv. simpl.
        rewrite Hb. simpl. rewrite Hc. unfold emit, upd_room. simpl.
        now rewrite Hlv.
      + unfold exec, handleSignal. simpl. rewrite Ehv. simpl.
        unfold handleControlReceived, assign_currentTime, bind, get, modify.
        simpl. rewrite Hvid. simpl. rewrite Ht. reflexivity.
      + auto. }
  destruct Hout as (a & p & Eh & Ev & Ha).
  assert (Eout : out = [ {| body := control a p; from := hostId; to := None |} ]).
  { unfold out.
    rewrite (@emitted_exactly _ _ _
               [Send ch {| body := control a p; from := hostId; to := None |}]);
      [reflexivity|].
    unfold exec. now rewrite Eh. }
  subst vs' hs'. rewrite Eout. simpl. unfold exec at 1. rewrite Eh.
  fold (exec (handleSignal viewerId false Bv
                {| body := control a p; from := hostId; to := None |}) vs).
  rewrite Ev. simpl.
  repeat split.
  - repeat constructor.
  - destruct Ha as [->|[->| ->]]; reflexivity.
  - destruct Ha as [->|[->| ->]]; reflexivity.
  - destruct Ha as [->|[->| ->]]; simpl; rewrite ?sends_app; simpl;
      rewrite ?app_nil_r; reflexivity.
Qed.

(** The Host seeks to 42 s in the file it shares. *)
Lemma X21_controls_are_mirrored_witness :
  let host := run "ROOM" "h" true obliging
                [Mounted; ClickMode file; FileChosen "17" (Some "a.mp4")]
                initial in
  let viewer := run "ROOM" "v" false obliging [Mounted] initial in
  let e := PreviewSeeked 42%float in
  let host' := exec (handle "ROOM" "h" true obliging e) host in
  let out := sends (emitted (handle "ROOM" "h" true obliging e) host) in
  let viewer' := run "ROOM" "v" false obliging (map Broadcast out) viewer in
  List.length out = 1
  /\ Forall (fun x => to x = None) out
  /\ localVideoRef (room host')
     = Some {| srcObject := None; src := "https://cdn/ROOM_17_a.mp4";
               muted := false; controls := true; currentTime := 42%float;
               paused := false; bound := true |}
  /\ room viewer'
     = set_videoRef (Some (with_currentTime blankVideo 42%float)) (room viewer)
  /\ hook viewer' = hook viewer
  /\ sends (log viewer') = sends (log viewer).
Proof.
  cbv zeta.
  refine (@X21_controls_are_mirrored "ROOM" "h" "v" obliging obliging
            (PreviewSeeked 42%float)
            (run "ROOM" "h" true obliging
               [Mounted; ClickMode file; FileChosen "17" (Some "a.mp4")]
               initial)
            (run "ROOM" "v" false obliging [Mounted] initial)
            1
            {| srcObject := None; src := "https://cdn/ROOM_17_a.mp4";
               muted := false; controls := true; currentTime := 0%float;
               paused := false; bound := true |}
            blankVideo
            (fun x => with_currentTime x 42%float)
            _ eq_refl eq_refl eq_refl eq_refl (fun _ => eq_refl) _).
  - intro H. discriminate H.
  - right. right. exists 42%float. repeat split.
Defined.
